(** * Time-series layers of worldwind-timeseries: slot index, nearest-time
      lookup and the image retrieval bookkeeping.

    The development embeds
    - [src/layer/WeatherLayer.js] (slot generation in [prePopulate], the
      nearest-time resolver [nearestLayerName], [nearestLayer], [doRender],
      [isPrePopulated]);
    - the [TimeSeriesLayer] variant (slot table kept in an object keyed by
      the date, [isPrePopulated], [doRender]);
    - [src/layer/BMNGOneImageLayer.js] ([retrieveImage] with its [onload] and
      [onerror] handlers, [prePopulate], [isImageLayerInMemory]);
    - the two [OneImageLayer] files and the polling and animation callbacks
      of the application script.

    Each module is embedded with the names that its [define] call binds:
    where a file uses a name that its factory does not receive, the
    embedding has the error that the use throws.

    Timestamps are epoch milliseconds, modelled as [Z] (valid dates only).
    The slot count [intervalMilliseconds/period + 1] is kept as an exact
    rational. *)

From stdpp Require Import base list strings gmap pretty.
From Stdlib Require Import ZArith QArith Qround Lia.

Local Open Scope Z_scope.

(** ** JavaScript values and helpers *)

Module JS.

Inductive Error := TypeError | ReferenceError | ArgumentError.

(** Outcome of a call: a returned value or a thrown error. *)
Inductive Completion (A : Type) :=
| Normal (a : A)
| Throw (e : Error).
Global Arguments Normal {A} a.
Global Arguments Throw {A} e.

(** A property that holds a string or is [undefined] is an
    [option string]; [None] is [undefined]. Used as a property key or in a
    string concatenation, [undefined] becomes the text "undefined". *)
Definition ToString (v : option string) : string := default "undefined" v.

(** The properties that every plain object inherits from
    [Object.prototype]. A read [o[key]] of one of them on an object [{}]
    without an own property of that name yields the inherited method (for
    "__proto__" the prototype object itself): a truthy value that is not a
    layer. *)
Definition inheritedKeys : list string :=
  ["constructor"; "__defineGetter__"; "__defineSetter__"; "hasOwnProperty";
   "__lookupGetter__"; "__lookupSetter__"; "isPrototypeOf";
   "propertyIsEnumerable"; "toString"; "valueOf"; "__proto__";
   "toLocaleString"].

Definition inherited (key : string) : bool :=
  bool_decide (key ∈ inheritedKeys).

(** [i.toString()] for a non-negative integer: its decimal digits. *)
Definition toString (i : nat) : string := pretty i.

(** Result of a division of two integers, and of adding one to it, kept
    as the exact rational. The code computes both in double precision,
    which gives the same number whenever the divisor divides the dividend
    and the values stay below 2^53; that is the case the statements on the
    number of slots are about. *)
Inductive Number :=
| Finite (q : Q)
| PosInfinity
| NegInfinity
| NaN.

Definition divide (a b : Z) : Number :=
  if decide (b = 0) then
    if decide (a = 0) then NaN
    else if decide (0 < a) then PosInfinity else NegInfinity
  else Finite (inject_Z a / inject_Z b).

Definition add_one (n : Number) : Number :=
  match n with
  | Finite q => Finite (q + 1)
  | other => other
  end.

(** [len != n] for an array length [len]. *)
Definition differs (len : nat) (n : Number) : bool :=
  match n with
  | Finite q => negb (Qeq_bool (inject_Z (Z.of_nat len)) q)
  | _ => true
  end.

(** [i < n] for a loop counter [i]. *)
Definition less (i : nat) (n : Number) : bool :=
  match n with
  | Finite q => if Qlt_le_dec (inject_Z (Z.of_nat i)) q then true else false
  | PosInfinity => true
  | NegInfinity | NaN => false
  end.

(** Number of rounds of [for (var i = 0; i < n; i++)]: the least [k] with
    [less k n = false]; [None] when the loop never exits. *)
Definition rounds (n : Number) : option nat :=
  match n with
  | Finite q => Some (Z.to_nat (Qceiling q))
  | PosInfinity => None
  | NegInfinity | NaN => Some 0%nat
  end.

(** [a[i] = v]. An index below the length overwrites; the index equal to
    the length appends. The loops of this program write the indices
    0, 1, 2, ... in turn, so an index never exceeds the length and no holes
    arise. *)
Definition array_set {A} (i : nat) (v : A) (a : list A) : list A :=
  if decide (i < length a)%nat then <[i:=v]> a else a ++ [v].

End JS.

(** ** PeriodicTimeSequence *)

Module PeriodicTimeSequence.

(** Modelled from the spec: [util/PeriodicTimeSequence] is not among the
    sources. Per the spec it is built from a start time, an end time and an
    interval duration; its current time starts at the start time;
    advancing adds the interval and wraps to the start when the result
    exceeds the end; the total range is [end - start]. *)
Record t := Build {
  startTime : Z;
  endTime : Z;
  period : Z;
  currentTime : Z
}.

(** Modelled from the spec: the constructor; the current time is
    initialized to the start. *)
Definition create (start stop interval : Z) : t :=
  {| startTime := start; endTime := stop; period := interval;
     currentTime := start |}.

(** Modelled from the spec: the length of the range, [end - start]. *)
Definition intervalMilliseconds (s : t) : Z := endTime s - startTime s.

(** Modelled from the spec: a time advanced by the interval. *)
Definition incrementTime (current interval : Z) : Z := current + interval.

(** Modelled from the spec: [next()] moves the current time to
    [current + interval], and to the start if that exceeds the end. *)
Definition next (s : t) : t :=
  let advanced := incrementTime (currentTime s) (period s) in
  {| startTime := startTime s; endTime := endTime s; period := period s;
     currentTime := if decide (endTime s < advanced) then startTime s
                    else advanced |}.

End PeriodicTimeSequence.

(** ** Entries of [layerNames] *)

Module LayerName.

(** An entry of the [layerNames] array of [WeatherLayer]: an object whose
    properties [name], [month] are strings or missing, and whose [time] is
    a date. *)
Record t := Build {
  name : option string;
  month : option string;
  time : Z
}.

End LayerName.

(** ** The single-image sub-layer as the time-series layers hold it *)

Module SubLayer.

(** A [BMNGOneImageLayer] object: the path of its image and the display
    properties that the time-series layer writes before each draw. *)
Record t := Build {
  imagePath : string;
  opacity : Q;
  detailControl : option Q;
  inCurrentFrame : bool
}.

(** The constructor [BMNGOneImageLayer(img_path)]: a missing (or empty)
    path selects the bundled Blue Marble image. The opacity of a new layer
    is 1 and it has no detail control. *)
Definition create (img_path : option string) : t :=
  let path :=
    match img_path with
    | None | Some EmptyString =>
        "images/BMNG_world.topo.bathy.200405.3.2048x1024.jpg"
    | Some p => p
    end in
  {| imagePath := path; opacity := 1%Q; detailControl := None;
     inCurrentFrame := false |}.

Definition truthy (n : option Q) : bool :=
  match n with
  | Some q => negb (Qeq_bool q 0)
  | None => false
  end.

(** [layer.opacity = opacity; if (detailControl) layer.detailControl =
    detailControl;] *)
Definition configure (op : Q) (dc : option Q) (l : t) : t :=
  {| imagePath := imagePath l; opacity := op;
     detailControl := if truthy dc then dc else detailControl l;
     inCurrentFrame := inCurrentFrame l |}.

End SubLayer.

(** ** WeatherLayer *)

Module WeatherLayer.
Import JS.

(** The state of one [WeatherLayer] together with the class-level array
    [WeatherLayer.availableTimes]. The field [layers] is the object that
    holds the sub-layers by name; a sub-layer is referred to by its key, so
    that writes through [layers[name]] are seen by every later read.
    [rendered] records, in order, the sub-layers handed to the external
    renderer by [layer.doRender(dc)]. *)
Record t := Build {
  availableTimes : list Z;
  time : Z;
  timeSequence : PeriodicTimeSequence.t;
  pathToData : string;
  layers : gmap string SubLayer.t;
  layerNames : list LayerName.t;
  opacity : Q;
  detailControl : option Q;
  inCurrentFrame : bool;
  rendered : list SubLayer.t
}.

(** [new WeatherLayer(displayName, initialTime, configuration)] over a
    sequence [start/stop/interval]; [availableTimes] is the class-level
    array as it stands when the layer is created. *)
Definition create (available : list Z) (initialTime : Z)
    (seq : PeriodicTimeSequence.t) : t :=
  {| availableTimes := available; time := initialTime;
     timeSequence := seq;
     pathToData := "/standalonedata/WORLD-CED/test/";
     layers := ∅; layerNames := []; opacity := 1%Q;
     detailControl := None; inCurrentFrame := false; rendered := [] |}.

Definition set_layers (m : gmap string SubLayer.t) (w : t) : t :=
  {| availableTimes := availableTimes w; time := time w;
     timeSequence := timeSequence w; pathToData := pathToData w;
     layers := m; layerNames := layerNames w; opacity := opacity w;
     detailControl := detailControl w;
     inCurrentFrame := inCurrentFrame w; rendered := rendered w |}.

(** [createSubLayer(layerName)] *)
Definition createSubLayer (layerName : option string) (w : t) : t :=
  let dataPath := pathToData w +:+ ToString layerName +:+ ".png" in
  set_layers (<[ToString layerName := SubLayer.create (Some dataPath)]>
                (layers w)) w.

(** The name of slot [i]: its decimal numeral, with a leading "0" below
    10. *)
Definition monthOf (i : nat) : string :=
  if decide (i < 10)%nat then "0" +:+ toString i else toString i.

(** One round of the slot-generating loop of [prePopulate], at counter
    [i]. *)
Definition buildStep (i : nat) (w : t) : t :=
  let current := PeriodicTimeSequence.currentTime (timeSequence w) in
  {| availableTimes := array_set i current (availableTimes w);
     time := time w;
     timeSequence := PeriodicTimeSequence.next (timeSequence w);
     pathToData := pathToData w;
     layers := layers w;
     layerNames :=
       array_set i {| LayerName.name := None;
                      LayerName.month := Some (monthOf i);
                      LayerName.time := current |} (layerNames w);
     opacity := opacity w; detailControl := detailControl w;
     inCurrentFrame := inCurrentFrame w; rendered := rendered w |}.

(** [n] rounds of the loop from counter [i]. *)
Fixpoint buildLoop (n i : nat) (w : t) : t :=
  match n with
  | O => w
  | S n' => buildLoop n' (S i) (buildStep i w)
  end.

(** The second loop of [prePopulate]: for each entry, create the sub-layer
    of its [name] unless [this.layers[layerName]] is truthy: [layers] has
    one, or the name is one that the object inherits. (The call that would
    pre-populate the sub-layer is commented out in the source.) *)
Definition ensureSubLayer (w : t) (entry : LayerName.t) : t :=
  let layerName := LayerName.name entry in
  match layers w !! ToString layerName with
  | Some _ => w
  | None =>
      if inherited (ToString layerName) then w
      else createSubLayer layerName w
  end.

(** [prePopulate(wwd)]. [wwd] is [None] when the argument is missing.
    The result is [None] when the slot loop never exits (an infinite slot
    count). *)
Definition prePopulate {W} (wwd : option W) (w : t)
    : option (Completion t) :=
  match wwd with
  | None => Some (Throw ArgumentError)
  | Some _ =>
      let seq := timeSequence w in
      let period :=
        PeriodicTimeSequence.incrementTime
          (PeriodicTimeSequence.currentTime seq)
          (PeriodicTimeSequence.period seq)
        - PeriodicTimeSequence.currentTime seq in
      let length :=
        add_one
          (divide (PeriodicTimeSequence.intervalMilliseconds seq) period) in
      let built :=
        if differs (List.length (availableTimes w)) length then
          n ← rounds length; Some (buildLoop n 0 w)
        else Some w in
      w1 ← built;
      Some (Normal (foldl ensureSubLayer w1 (layerNames w1)))
  end.

(** [isPrePopulated(wwd)]: the loop over the sub-layers is commented out
    in the source; what is left is [return true]. *)
Definition isPrePopulated {W} (wwd : option W) (w : t) : Completion bool :=
  Normal true.

(** The loop of [nearestLayerName] over adjacent pairs, from the head of
    [entries]; [None] is [undefined], which is also what falling out of the
    loop returns. *)
Fixpoint scanName (milliseconds : Z) (entries : list LayerName.t)
    : option string :=
  match entries with
  | leftEntry :: ((rightEntry :: _) as rest) =>
      let leftTime := LayerName.time leftEntry in
      let rightTime := LayerName.time rightEntry in
      if decide (leftTime <= milliseconds ∧ milliseconds <= rightTime) then
        let dLeft := milliseconds - leftTime in
        let dRight := rightTime - milliseconds in
        if decide (dLeft < dRight) then LayerName.name leftEntry
        else LayerName.name rightEntry
      else scanName milliseconds rest
  | _ => None
  end.

(** [nearestLayerName(time)] with [milliseconds = time.getTime()]. On an
    empty [layerNames] the read [this.layerNames[0].time] throws. *)
Definition nearestLayerName (layerNames : list LayerName.t)
    (milliseconds : Z) : Completion (option string) :=
  match layerNames, last layerNames with
  | first :: _, Some final =>
      if decide (milliseconds <= LayerName.time first) then
        Normal (LayerName.name first)
      else if decide (LayerName.time final <= milliseconds) then
        Normal (LayerName.name final)
      else Normal (scanName milliseconds layerNames)
  | _, _ => Throw TypeError
  end.

(** The position in [layerNames] of the entry whose [name] the loop
    returns, counting from [i]. *)
Fixpoint scanIndex (milliseconds : Z) (i : nat) (entries : list LayerName.t)
    : option nat :=
  match entries with
  | leftEntry :: ((rightEntry :: _) as rest) =>
      let leftTime := LayerName.time leftEntry in
      let rightTime := LayerName.time rightEntry in
      if decide (leftTime <= milliseconds ∧ milliseconds <= rightTime) then
        let dLeft := milliseconds - leftTime in
        let dRight := rightTime - milliseconds in
        if decide (dLeft < dRight) then Some i else Some (S i)
      else scanIndex milliseconds (S i) rest
  | _ => None
  end.

(** The position of the entry that [nearestLayerName] selects: the same
    branches, returning the index instead of the entry's [name]. [None]
    when no entry is selected (the call throws or falls out of the loop). *)
Definition nearestIndex (layerNames : list LayerName.t) (milliseconds : Z)
    : option nat :=
  match layerNames, last layerNames with
  | first :: _, Some final =>
      if decide (milliseconds <= LayerName.time first) then Some 0%nat
      else if decide (LayerName.time final <= milliseconds) then
        Some (List.length layerNames - 1)%nat
      else scanIndex milliseconds 0 layerNames
  | _, _ => None
  end.

(** [nearestLayer(time)]: returns the key under which the selected
    sub-layer sits in [layers], creating the sub-layer if
    [this.layers[nearestName]] is falsy. For a name that the object
    inherits and [layers] does not hold, nothing is created and what the
    call returns is the inherited value, which [layers] has no sub-layer
    for. *)
Definition nearestLayer (w : t) (milliseconds : Z)
    : Completion (t * string) :=
  match nearestLayerName (layerNames w) milliseconds with
  | Throw e => Throw e
  | Normal nearestName =>
      match layers w !! ToString nearestName with
      | Some _ => Normal (w, ToString nearestName)
      | None =>
          if inherited (ToString nearestName) then
            Normal (w, ToString nearestName)
          else
            Normal (createSubLayer nearestName w, ToString nearestName)
      end
  end.

(** [doRender(dc)]. When what [nearestLayer] returns is not a sub-layer
    (an inherited value), the call [layer.doRender(dc)] throws. *)
Definition doRender (w : t) : Completion t :=
  match nearestLayer w (time w) with
  | Throw e => Throw e
  | Normal (w1, key) =>
      let configured :=
        alter (SubLayer.configure (opacity w1) (detailControl w1)) key
              (layers w1) in
      match configured !! key with
      | None => Throw TypeError
      | Some layer =>
          Normal
            {| availableTimes := availableTimes w1; time := time w1;
               timeSequence := timeSequence w1;
               pathToData := pathToData w1;
               layers := configured; layerNames := layerNames w1;
               opacity := opacity w1; detailControl := detailControl w1;
               inCurrentFrame := SubLayer.inCurrentFrame layer;
               rendered := rendered w1 ++ [layer] |}
      end
  end.

End WeatherLayer.

(** ** The resource cache and the absent-resource tracker *)

Module GpuResourceCache.

(** A decoded image: where it came from and its size in bytes. *)
Record Texture := { source : string; size : Z }.

Record Entry := { resource : Texture; entrySize : Z }.

(** Modelled from the spec: the cache class behind [dc.gpuResourceCache]
    is not among the sources. Per the spec it is a keyed store mapping a
    resource identifier to its loaded representation plus size accounting,
    with a presence check and an insertion. *)
Definition containsResource (key : string) (cache : gmap string Entry)
    : bool :=
  bool_decide (is_Some (cache !! key)).

(** Modelled from the spec: insertion under an identifier, with the
    size. *)
Definition putResource (key : string) (r : Texture) (sz : Z)
    (cache : gmap string Entry) : gmap string Entry :=
  <[key := {| resource := r; entrySize := sz |}]> cache.

End GpuResourceCache.

Module AbsentResourceList.

(** Modelled from the spec: [util/AbsentResourceList] is not among the
    sources. Per the spec it records, for each identifier that failed to
    load, the time it was marked; an identifier is absent while its mark
    has not expired, the cool-down duration being a configuration value. *)
Definition isResourceAbsent (coolDown now : Z) (marks : gmap string Z)
    (resourceId : string) : bool :=
  match marks !! resourceId with
  | Some markedAt => bool_decide (now - markedAt < coolDown)
  | None => false
  end.

(** Modelled from the spec: mark the identifier absent with the current
    time. *)
Definition markResourceAbsent (now : Z) (resourceId : string)
    (marks : gmap string Z) : gmap string Z :=
  <[resourceId := now]> marks.

(** Modelled from the spec: clear the absent mark of the identifier. *)
Definition unmarkResourceAbsent (resourceId : string)
    (marks : gmap string Z) : gmap string Z :=
  delete resourceId marks.

End AbsentResourceList.

(** ** BMNGOneImageLayer: retrieval of the image *)

Module BMNGOneImageLayer.
Import JS GpuResourceCache AbsentResourceList.

(** An [Image] object whose [src] has been set and whose [onload] /
    [onerror] handler has not run yet: one outstanding fetch. The fields
    are what the two handlers capture. *)
Record Request := {
  requestPath : string;
  requestUrl : string;
  suppressRedraw : bool
}.

(** The members [currentRetrievals], [absentResourceList],
    [resourceUrlForTile], [createTexture] and [removeFromCurrentRetrievals]
    are used by [retrieveImage] but not defined in the file; they are taken
    as the layer's base class provides them.

    The layer, the draw context it works on and the canvas: [imagePath]
    is [this.imagePath]; [currentRetrievals] is the in-flight array;
    [absentResourceList] holds the absent marks; [gpuResourceCache] is
    [dc.gpuResourceCache]; [outstanding] lists the fetches handed to the
    browser; [redraws] counts the redraw events dispatched to the
    canvas. *)
Record t := Build {
  imagePath : string;
  currentRetrievals : list string;
  absentResourceList : gmap string Z;
  currentTilesInvalid : bool;
  gpuResourceCache : gmap string Entry;
  outstanding : list Request;
  redraws : nat
}.

(** The names that the code of the module can refer to: the parameters of
    its factory, which are bound to the four modules of its dependency
    list, and its own class. [Logger] and [ArgumentError] are used in the
    file but declared nowhere in it (the library provides them as members
    of [WorldWind], not as globals): evaluating either identifier throws a
    ReferenceError. *)
Definition moduleScope : list string :=
  ["RenderableLayer"; "Sector"; "SurfaceImage"; "WWUtil";
   "BMNGOneImageLayer"].

Definition resolve (identifier : string) : Completion unit :=
  if bool_decide (identifier ∈ moduleScope) then Normal ()
  else Throw ReferenceError.

(** [isImageLayerInMemory(dc, tile)] with [tile.imagePath = path]. *)
Definition isImageLayerInMemory (path : string) (s : t) : bool :=
  containsResource path (gpuResourceCache s).

(** Modelled from the spec: [removeFromCurrentRetrievals] is inherited
    from a class that is not among the sources; per the spec it removes the
    identifier from the in-flight set. *)
Definition removeFromCurrentRetrievals (path : string) (s : t) : t :=
  {| imagePath := imagePath s;
     currentRetrievals := filter (λ p, p ≠ path) (currentRetrievals s);
     absentResourceList := absentResourceList s;
     currentTilesInvalid := currentTilesInvalid s;
     gpuResourceCache := gpuResourceCache s;
     outstanding := outstanding s;
     redraws := redraws s |}.

Section Retrieval.

(** [resourceUrlForTile(tile, format)], inherited from a class that is
    not among the sources: the URL for the tile with the given image
    path, or [None] when it yields nothing. The empty string is falsy
    as well. *)
Variable resourceUrlForTile : string → option string.

(** The cool-down duration of the absent-resource tracker. *)
Variable coolDown : Z.

(** [image.onload], for the fetch [r]; [texture] is what
    [createTexture(dc, tile, image)] would return for the payload, [None]
    when it returns nothing. The first statement of the handler is
    [Logger.log(...)]: the handler completes there, by the ReferenceError,
    unless [Logger] resolves. *)
Definition onload (r : Request) (texture : option Texture) (s : t)
    : Completion t :=
  match resolve "Logger" with
  | Throw e => Throw e
  | Normal _ =>
      let s1 := removeFromCurrentRetrievals (requestPath r) s in
      match texture with
      | Some tx =>
          Normal
            {| imagePath := imagePath s1;
               currentRetrievals := currentRetrievals s1;
               absentResourceList :=
                 unmarkResourceAbsent (requestPath r) (absentResourceList s1);
               currentTilesInvalid := true;
               gpuResourceCache :=
                 putResource (requestPath r) tx (size tx)
                   (gpuResourceCache s1);
               outstanding := outstanding s1;
               redraws := if suppressRedraw r then redraws s1
                          else S (redraws s1) |}
      | None => Normal s1
      end
  end.

(** The layer after the [onload] handler has run: what the handler leaves
    when it returns, and the layer as it was when the handler throws, which
    it can only do at its first statement. *)
Definition afterOnload (r : Request) (texture : option Texture) (s : t)
    : t :=
  match onload r texture s with
  | Normal s' => s'
  | Throw _ => s
  end.

(** [image.onerror], for the fetch [r], run at time [now]: the layer as the
    handler leaves it. Its last statement is [Logger.log(...)], so the
    handler too ends by the ReferenceError, with the changes made. *)
Definition onerror (r : Request) (now : Z) (s : t) : t :=
  let s1 := removeFromCurrentRetrievals (requestPath r) s in
  {| imagePath := imagePath s1;
     currentRetrievals := currentRetrievals s1;
     absentResourceList :=
       markResourceAbsent now (requestPath r) (absentResourceList s1);
     currentTilesInvalid := currentTilesInvalid s1;
     gpuResourceCache := gpuResourceCache s1;
     outstanding := outstanding s1;
     redraws := redraws s1 |}.

(** [retrieveImage(dc, tile, suppressRedraw)] with
    [tile.imagePath = path], called at time [now]. *)
Definition retrieveImage (path : string) (suppress : bool) (now : Z)
    (s : t) : t :=
  if decide (path ∈ currentRetrievals s) then s
  else if isResourceAbsent coolDown now (absentResourceList s) path then s
  else
    match resourceUrlForTile path with
    | None | Some EmptyString =>
        {| imagePath := imagePath s;
           currentRetrievals := currentRetrievals s;
           absentResourceList := absentResourceList s;
           currentTilesInvalid := true;
           gpuResourceCache := gpuResourceCache s;
           outstanding := outstanding s;
           redraws := redraws s |}
    | Some url =>
        {| imagePath := imagePath s;
           currentRetrievals := currentRetrievals s ++ [path];
           absentResourceList := absentResourceList s;
           currentTilesInvalid := currentTilesInvalid s;
           gpuResourceCache := gpuResourceCache s;
           outstanding :=
             outstanding s ++ [{| requestPath := path; requestUrl := url;
                                  suppressRedraw := suppress |}];
           redraws := redraws s |}
    end.

(** [throw new ArgumentError(...)]: the constructor is evaluated first. *)
Definition throwArgumentError {A} : Completion A :=
  match resolve "ArgumentError" with
  | Throw e => Throw e
  | Normal _ => Throw ArgumentError
  end.

(** [prePopulate(wwd)], called at time [now]. *)
Definition prePopulate {W} (wwd : option W) (now : Z) (s : t)
    : Completion t :=
  match wwd with
  | None => throwArgumentError
  | Some _ =>
      if isImageLayerInMemory (imagePath s) s then Normal s
      else Normal (retrieveImage (imagePath s) true now s)
  end.

(** [isPrePopulated(wwd)] *)
Definition isPrePopulated {W} (wwd : option W) (s : t) : Completion bool :=
  match wwd with
  | None => throwArgumentError
  | Some _ => Normal (isImageLayerInMemory (imagePath s) s)
  end.

(** *** The event loop

    What can happen to a layer: a call of [retrieveImage], a call of
    [prePopulate], and the completion of the [k]-th outstanding fetch,
    by its [onload] handler (with the outcome of decoding) or by its
    [onerror] handler. Each event carries the time at which it runs. *)
Inductive Event :=
| Retrieve (path : string) (suppress : bool) (now : Z)
| PrePopulate (now : Z)
| Loaded (k : nat) (texture : option Texture) (now : Z)
| Failed (k : nat) (now : Z).

Definition eventTime (e : Event) : Z :=
  match e with
  | Retrieve _ _ now | PrePopulate now | Loaded _ _ now | Failed _ now =>
      now
  end.

(** The fetch is no longer outstanding once its handler runs. *)
Definition settle (k : nat) (s : t) : t :=
  {| imagePath := imagePath s;
     currentRetrievals := currentRetrievals s;
     absentResourceList := absentResourceList s;
     currentTilesInvalid := currentTilesInvalid s;
     gpuResourceCache := gpuResourceCache s;
     outstanding := delete k (outstanding s);
     redraws := redraws s |}.

(** A layer at a point in time. *)
Record World := { clock : Z; layer : t }.

(** One event; [None] when the event cannot happen: time does not run
    backwards, and only an outstanding fetch completes. *)
Definition step (e : Event) (w : World) : option World :=
  if decide (eventTime e < clock w) then None
  else
    let s := layer w in
    s' ← match e with
         | Retrieve path suppress now =>
             Some (retrieveImage path suppress now s)
         | PrePopulate now =>
             match prePopulate (Some ()) now s with
             | Normal s' => Some s'
             | Throw _ => None
             end
         | Loaded k texture _ =>
             r ← outstanding s !! k;
             Some (afterOnload r texture (settle k s))
         | Failed k now =>
             r ← outstanding s !! k; Some (onerror r now (settle k s))
         end;
    Some {| clock := eventTime e; layer := s' |}.

Fixpoint run (es : list Event) (w : World) : option World :=
  match es with
  | [] => Some w
  | e :: es' => w' ← step e w; run es' w'
  end.

(** A new layer: nothing in flight. *)
Definition initial (w : World) : Prop :=
  currentRetrievals (layer w) = [] ∧ outstanding (layer w) = [].

End Retrieval.

End BMNGOneImageLayer.

(** ** OneImageLayer: the sub-layer of TimeSeriesLayer *)

Module OneImageLayer.
Import JS GpuResourceCache.

(** The world window as far as the layers use it: the resource cache of
    its draw context, and the image paths passed so far to the cache's own
    [retrieveTexture]. *)
Record WorldWindow := {
  gpuResourceCache : gmap string Entry;
  retrieved : list string
}.

(** The constructor [OneImageLayer(img_path)] under the configured
    [baseUrl]. *)
Definition create (baseUrl : string) (img_path : option string)
    : SubLayer.t :=
  let path :=
    match img_path with
    | None | Some EmptyString =>
        baseUrl +:+ "/standalonedata/WORLD-CED/test/00.png"
    | Some p => baseUrl +:+ p
    end in
  {| SubLayer.imagePath := path; SubLayer.opacity := 1%Q;
     SubLayer.detailControl := None; SubLayer.inCurrentFrame := false |}.

Definition isImageLayerInMemory (dc : WorldWindow) (tile : SubLayer.t)
    : bool :=
  containsResource (SubLayer.imagePath tile) (gpuResourceCache dc).

(** [throw new ArgumentError(...)]: the parameters of the module's factory
    are [AbsentResourceList], [Logger], [MemoryCache], [Texture],
    [RenderableLayer], [Sector] and [SurfaceImage], and the file declares
    no [ArgumentError]; the constructor is evaluated first, which throws a
    ReferenceError. *)
Definition throwArgumentError {A} : Completion A := Throw ReferenceError.

(** [isPrePopulated(wwd)] *)
Definition isPrePopulated (wwd : option WorldWindow) (l : SubLayer.t)
    : Completion bool :=
  match wwd with
  | None => throwArgumentError
  | Some dc => Normal (isImageLayerInMemory dc l)
  end.

(** [prePopulate(wwd)]: asks the cache to retrieve the texture unless the
    cache holds it. The world window is shared, so the call returns it as
    it is afterwards. *)
Definition prePopulate (wwd : option WorldWindow) (l : SubLayer.t)
    : Completion WorldWindow :=
  match wwd with
  | None => throwArgumentError
  | Some dc =>
      if isImageLayerInMemory dc l then Normal dc
      else Normal {| gpuResourceCache := gpuResourceCache dc;
                     retrieved := retrieved dc ++ [SubLayer.imagePath l] |}
  end.

End OneImageLayer.

(** ** TimeSeriesLayer *)

Module TimeSeriesLayer.
Import JS.

(** An object used as a map with string keys that are not array indices:
    enumeration by [for ... in] follows insertion order, and assigning to
    an existing key keeps its place. *)
Fixpoint object_set {A} (key : string) (v : A) (o : list (string * A))
    : list (string * A) :=
  match o with
  | [] => [(key, v)]
  | (k, x) :: rest =>
      if decide (k = key) then (k, v) :: rest
      else (k, x) :: object_set key v rest
  end.

Fixpoint object_get {A} (key : string) (o : list (string * A)) : option A :=
  match o with
  | [] => None
  | (k, x) :: rest => if decide (k = key) then Some x else object_get key rest
  end.

Record t := Build {
  availableTimes : list Z;
  time : Z;
  timeSequence : PeriodicTimeSequence.t;
  pathToData : string;
  layers : gmap string SubLayer.t;
  layerNames : list (string * string);
  opacity : Q;
  detailControl : option Q;
  inCurrentFrame : bool;
  rendered : list SubLayer.t
}.

(** The [define] call of the module lists one dependency,
    '../../worldwindlib.js', for a factory declared with the four
    parameters [ArgumentError], [Layer], [Logger] and
    [PeriodicTimeSequence]. The factory is called with one argument: inside
    the module [ArgumentError] is that library, and [Layer], [Logger] and
    [PeriodicTimeSequence] are [undefined]. *)
Definition dependencies : list string := ["../../worldwindlib.js"].

Definition parameters : list string :=
  ["ArgumentError"; "Layer"; "Logger"; "PeriodicTimeSequence"].

(** A parameter of the factory has a value when the dependency list has an
    entry at its position. *)
Definition bound (parameter : string) : bool :=
  match list_find (λ p, p = parameter) parameters with
  | Some (i, _) => bool_decide (i < length dependencies)%nat
  | None => false
  end.

(** Reading a member of one of the parameters: its value, or a TypeError
    when the parameter is [undefined]. *)
Definition member {A} (parameter : string) (value : A) : Completion A :=
  if bound parameter then Normal value else Throw TypeError.

Section Layer.

(** The property key a date turns into (its text form), and the
    configured [baseUrl]; both come from outside the sources. *)
Variable dateKey : Z → string.
Variable baseUrl : string.

(** [new TimeSeriesLayer(displayName, initialTime, configuration)]: the
    first statement of the constructor is [Layer.call(this, ...)]. *)
Definition create (available : list Z) (initialTime : Z)
    (seq : PeriodicTimeSequence.t) : Completion t :=
  match member "Layer" () with
  | Throw e => Throw e
  | Normal _ =>
      Normal
        {| availableTimes := available; time := initialTime;
           timeSequence := seq;
           pathToData := "standalonedata/WORLD-CED/test/";
           layers := ∅; layerNames := []; opacity := 1%Q;
           detailControl := None; inCurrentFrame := false; rendered := [] |}
  end.

Definition set_layers (m : gmap string SubLayer.t) (w : t) : t :=
  {| availableTimes := availableTimes w; time := time w;
     timeSequence := timeSequence w; pathToData := pathToData w;
     layers := m; layerNames := layerNames w; opacity := opacity w;
     detailControl := detailControl w;
     inCurrentFrame := inCurrentFrame w; rendered := rendered w |}.

(** [createSubLayer(layerName)] *)
Definition createSubLayer (layerName : string) (w : t) : t :=
  let dataPath := pathToData w +:+ layerName +:+ ".png" in
  set_layers (<[layerName := OneImageLayer.create baseUrl (Some dataPath)]>
                (layers w)) w.

Definition nameOf (i : nat) : string :=
  if decide (i < 10)%nat then "0" +:+ toString i else toString i.

(** One round of the slot-generating loop of [prePopulate]. *)
Definition buildStep (i : nat) (w : t) : t :=
  let current := PeriodicTimeSequence.currentTime (timeSequence w) in
  {| availableTimes := array_set i current (availableTimes w);
     time := time w;
     timeSequence := PeriodicTimeSequence.next (timeSequence w);
     pathToData := pathToData w;
     layers := layers w;
     layerNames := object_set (dateKey current) (nameOf i) (layerNames w);
     opacity := opacity w; detailControl := detailControl w;
     inCurrentFrame := inCurrentFrame w; rendered := rendered w |}.

Fixpoint buildLoop (n i : nat) (w : t) : t :=
  match n with
  | O => w
  | S n' => buildLoop n' (S i) (buildStep i w)
  end.

(** The second loop of [prePopulate] over the entries of [layerNames]
    as they are enumerated: create the sub-layer unless
    [this.layers[layerName]] is truthy, then pre-populate what
    [this.layers[layerName]] is. For a name that the object inherits and
    [layers] does not hold, that is not a sub-layer, and the call throws. *)
Fixpoint populate (wwd : option OneImageLayer.WorldWindow)
    (entries : list (string * string)) (w : t)
    : Completion (t * option OneImageLayer.WorldWindow) :=
  match entries with
  | [] => Normal (w, wwd)
  | (_, layerName) :: rest =>
      let w1 :=
        match layers w !! layerName with
        | Some _ => w
        | None =>
            if inherited layerName then w else createSubLayer layerName w
        end in
      match layers w1 !! layerName with
      | None => Throw TypeError
      | Some sub =>
          match OneImageLayer.prePopulate wwd sub with
          | Throw e => Throw e
          | Normal dc => populate (Some dc) rest w1
          end
      end
  end.

(** [prePopulate(wwd)]; [None] when the slot loop never exits. Without a
    world window, the argument [Logger.logMessage(...)] of the
    [ArgumentError] is evaluated before the error is constructed; with one,
    the first statement calls [PeriodicTimeSequence.incrementTime]. *)
Definition prePopulate (wwd : option OneImageLayer.WorldWindow) (w : t)
    : option (Completion (t * option OneImageLayer.WorldWindow)) :=
  match wwd with
  | None =>
      match member "Logger" () with
      | Throw e => Some (Throw e)
      | Normal _ => Some (Throw ArgumentError)
      end
  | Some _ =>
      match member "PeriodicTimeSequence"
              PeriodicTimeSequence.incrementTime with
      | Throw e => Some (Throw e)
      | Normal incrementTime =>
          let seq := timeSequence w in
          let period :=
            incrementTime
              (PeriodicTimeSequence.currentTime seq)
              (PeriodicTimeSequence.period seq)
            - PeriodicTimeSequence.currentTime seq in
          let length :=
            add_one
              (divide (PeriodicTimeSequence.intervalMilliseconds seq)
                      period) in
          let built :=
            if differs (List.length (availableTimes w)) length then
              n ← rounds length; Some (buildLoop n 0 w)
            else Some w in
          w1 ← built;
          Some (populate wwd (layerNames w1) w1)
      end
  end.

(** The loop of [isPrePopulated(wwd)]. *)
Fixpoint allPopulated (wwd : option OneImageLayer.WorldWindow)
    (layers : gmap string SubLayer.t) (entries : list (string * string))
    : Completion bool :=
  match entries with
  | [] => Normal true
  | (_, layerName) :: rest =>
      match layers !! layerName with
      | None => allPopulated wwd layers rest
      | Some sub =>
          match OneImageLayer.isPrePopulated wwd sub with
          | Throw e => Throw e
          | Normal false => Normal false
          | Normal true => allPopulated wwd layers rest
          end
      end
  end.

(** [isPrePopulated(wwd)] *)
Definition isPrePopulated (wwd : option OneImageLayer.WorldWindow)
    (w : t) : Completion bool :=
  allPopulated wwd (layers w) (layerNames w).

(** [doRender(dc)]: the sub-layer is looked up under the name stored for
    the current time itself; a missing name reads as [undefined]. *)
Definition doRender (w : t) : Completion t :=
  let key := ToString (object_get (dateKey (time w)) (layerNames w)) in
  let configured :=
    alter (SubLayer.configure (opacity w) (detailControl w)) key
          (layers w) in
  match configured !! key with
  | None => Throw TypeError
  | Some layer =>
      Normal
        {| availableTimes := availableTimes w; time := time w;
           timeSequence := timeSequence w; pathToData := pathToData w;
           layers := configured; layerNames := layerNames w;
           opacity := opacity w; detailControl := detailControl w;
           inCurrentFrame := SubLayer.inCurrentFrame layer;
           rendered := rendered w ++ [layer] |}
  end.

End Layer.

End TimeSeriesLayer.

(** ** The application script that shows a TimeSeriesLayer *)

Module TimeSeriesApp.
Import JS.

(** The state the script works on: the flag [prePopulate] that its polling
    callback keeps on [this]; the time-series layer with its [enabled] and
    [showSpinner] properties; the world window; whether the polling timer
    and the animation timer are set; the animation's [currentIndex]; and the
    numbers of calls of [wwd.redraw()] and of
    [layerManger.synchronizeLayerList()]. *)
Record t := Build {
  prePopulate : bool;
  timeseriesLayer : TimeSeriesLayer.t;
  enabled : bool;
  showSpinner : bool;
  wwd : OneImageLayer.WorldWindow;
  polling : bool;
  animating : bool;
  currentIndex : nat;
  redraws : nat;
  synchronized : nat
}.

(** The script up to the point where it sets the polling timer: the layer
    is disabled and shows its spinner, and the window has been redrawn
    once. *)
Definition start (layer : TimeSeriesLayer.t)
    (window : OneImageLayer.WorldWindow) : t :=
  {| prePopulate := false; timeseriesLayer := layer; enabled := false;
     showSpinner := true; wwd := window; polling := true;
     animating := false; currentIndex := 0; redraws := 1;
     synchronized := 0 |}.

(** [timeseriesLayer.time = time] *)
Definition set_time (time : Z) (w : TimeSeriesLayer.t) : TimeSeriesLayer.t :=
  {| TimeSeriesLayer.availableTimes := TimeSeriesLayer.availableTimes w;
     TimeSeriesLayer.time := time;
     TimeSeriesLayer.timeSequence := TimeSeriesLayer.timeSequence w;
     TimeSeriesLayer.pathToData := TimeSeriesLayer.pathToData w;
     TimeSeriesLayer.layers := TimeSeriesLayer.layers w;
     TimeSeriesLayer.layerNames := TimeSeriesLayer.layerNames w;
     TimeSeriesLayer.opacity := TimeSeriesLayer.opacity w;
     TimeSeriesLayer.detailControl := TimeSeriesLayer.detailControl w;
     TimeSeriesLayer.inCurrentFrame := TimeSeriesLayer.inCurrentFrame w;
     TimeSeriesLayer.rendered := TimeSeriesLayer.rendered w |}.

Section App.

Variable dateKey : Z → string.
Variable baseUrl : string.

(** The callback of the polling timer. On its first run it pre-populates
    the layer and sets the flag; later it asks whether the layer is
    pre-populated and, if so, enables the layer, clears the polling timer and
    sets the animation timer with [currentIndex = 0]. [None] when
    [prePopulate] never returns. An exception ends the callback where it is
    thrown, with the flag and the timers as they are, and the timer fires
    again. *)
Definition pollTick (a : t) : option t :=
  if negb (prePopulate a) then
    match TimeSeriesLayer.prePopulate dateKey baseUrl (Some (wwd a))
            (timeseriesLayer a) with
    | None => None
    | Some (Throw _) => Some a
    | Some (Normal (layer, window)) =>
        Some {| prePopulate := true; timeseriesLayer := layer;
                enabled := enabled a; showSpinner := showSpinner a;
                wwd := default (wwd a) window; polling := polling a;
                animating := animating a; currentIndex := currentIndex a;
                redraws := redraws a; synchronized := synchronized a |}
    end
  else
    match TimeSeriesLayer.isPrePopulated (Some (wwd a))
            (timeseriesLayer a) with
    | Normal true =>
        Some {| prePopulate := prePopulate a;
                timeseriesLayer := timeseriesLayer a;
                enabled := true; showSpinner := false;
                wwd := wwd a; polling := false;
                animating := true; currentIndex := 0;
                redraws := redraws a;
                synchronized := S (synchronized a) |}
    | Normal false | Throw _ => Some a
    end.

(** The callback of the animation timer: while the layer is enabled, step
    to the next of [availableTimes], wrapping around, show it and redraw.
    [None] when [availableTimes] is empty: the index is then not a number
    and the time undefined. *)
Definition animationTick (a : t) : option t :=
  if enabled a then
    let times := TimeSeriesLayer.availableTimes (timeseriesLayer a) in
    let index := (S (currentIndex a) `mod` length times)%nat in
    match times !! index with
    | None => None
    | Some time =>
        Some {| prePopulate := prePopulate a;
                timeseriesLayer := set_time time (timeseriesLayer a);
                enabled := enabled a; showSpinner := showSpinner a;
                wwd := wwd a; polling := polling a;
                animating := animating a; currentIndex := index;
                redraws := S (redraws a);
                synchronized := synchronized a |}
    end
  else Some a.

(** Modelled from the spec: the cache's own retrieval is not among the
    sources; per the spec a completed fetch inserts the resource into the
    cache under its identifier. *)
Definition arrive (path : string) (entry : GpuResourceCache.Entry) (a : t)
    : t :=
  {| prePopulate := prePopulate a; timeseriesLayer := timeseriesLayer a;
     enabled := enabled a; showSpinner := showSpinner a;
     wwd := {| OneImageLayer.gpuResourceCache :=
                 <[path := entry]>
                   (OneImageLayer.gpuResourceCache (wwd a));
               OneImageLayer.retrieved := OneImageLayer.retrieved (wwd a) |};
     polling := polling a; animating := animating a;
     currentIndex := currentIndex a; redraws := redraws a;
     synchronized := synchronized a |}.

(** What happens after the script has run: a timer fires, or an image
    arrives in the cache. *)
Inductive Event :=
| PollTick
| AnimationTick
| Arrive (path : string) (entry : GpuResourceCache.Entry).

(** One event; [None] when it cannot happen (the timer is not set) or the
    callback does not return. *)
Definition step (e : Event) (a : t) : option t :=
  match e with
  | PollTick => if polling a then pollTick a else None
  | AnimationTick => if animating a then animationTick a else None
  | Arrive path entry => Some (arrive path entry a)
  end.

Fixpoint run (es : list Event) (a : t) : option t :=
  match es with
  | [] => Some a
  | e :: es' => a' ← step e a; run es' a'
  end.

End App.

End TimeSeriesApp.

(** ** Predicates used in the statements *)

(** The timestamps of the entries increase strictly along the list. *)
Fixpoint ascending (entries : list LayerName.t) : bool :=
  match entries with
  | a :: ((b :: _) as rest) =>
      bool_decide (LayerName.time a < LayerName.time b) && ascending rest
  | _ => true
  end.

(** The entry that the slot loop generates at counter [i], for a sequence
    that starts at [start] and advances by [interval]. *)
Definition generated (start interval : Z) (i : nat) : LayerName.t :=
  {| LayerName.name := None;
     LayerName.month :=
       Some (if decide (i < 10)%nat then "0" +:+ pretty i else pretty i);
     LayerName.time := start + Z.of_nat i * interval |}.

(** What holds of a layer throughout the event loop: the in-flight array
    lists the path of every outstanding fetch; no two outstanding fetches
    have the same path; each outstanding fetch goes to the URL of its path;
    and no outstanding fetch is for a path that is marked absent at the
    current time. *)
Definition retrievalInvariant (resourceUrlForTile : string → option string)
    (coolDown : Z) (w : BMNGOneImageLayer.World) : Prop :=
  let s := BMNGOneImageLayer.layer w in
  (∀ r, r ∈ BMNGOneImageLayer.outstanding s →
        BMNGOneImageLayer.requestPath r
          ∈ BMNGOneImageLayer.currentRetrievals s) ∧
  NoDup (BMNGOneImageLayer.requestPath <$> BMNGOneImageLayer.outstanding s) ∧
  (∀ r, r ∈ BMNGOneImageLayer.outstanding s →
        resourceUrlForTile (BMNGOneImageLayer.requestPath r)
          = Some (BMNGOneImageLayer.requestUrl r) ∧
        BMNGOneImageLayer.requestUrl r ≠ "") ∧
  (∀ r, r ∈ BMNGOneImageLayer.outstanding s →
        AbsentResourceList.isResourceAbsent coolDown
          (BMNGOneImageLayer.clock w)
          (BMNGOneImageLayer.absentResourceList s)
          (BMNGOneImageLayer.requestPath r) = false).

(** The event completes a fetch of [path] by a successful load. *)
Definition loads (path : string) (e : BMNGOneImageLayer.Event)
    (s : BMNGOneImageLayer.t) : bool :=
  match e with
  | BMNGOneImageLayer.Loaded k (Some _) _ =>
      bool_decide (BMNGOneImageLayer.requestPath
                     <$> BMNGOneImageLayer.outstanding s !! k = Some path)
  | _ => false
  end.

(** No event of the run completes a fetch of [path] by a successful load. *)
Fixpoint quiet (resourceUrlForTile : string → option string) (coolDown : Z)
    (path : string) (es : list BMNGOneImageLayer.Event)
    (w : BMNGOneImageLayer.World) : bool :=
  match es with
  | [] => true
  | e :: es' =>
      negb (loads path e (BMNGOneImageLayer.layer w)) &&
      match BMNGOneImageLayer.step resourceUrlForTile coolDown e w with
      | Some w' => quiet resourceUrlForTile coolDown path es' w'
      | None => true
      end
  end.

(** The event fetches, if at all, with the redraw suppressed: anything but
    a call of [retrieveImage] that asks for a redraw. *)
Definition prefetchOnly (e : BMNGOneImageLayer.Event) : bool :=
  match e with
  | BMNGOneImageLayer.Retrieve _ suppress _ => suppress
  | _ => true
  end.

(** ** Sample data *)

(** A layer for the image of slot "05", with nothing cached, in flight or
    marked absent, at time 0; URLs are the paths under a fixed host; the
    cool-down is one minute. *)
Definition sampleUrl (path : string) : option string :=
  Some ("http://localhost" +:+ path).

Definition samplePath : string := "/standalonedata/WORLD-CED/test/05.png".

Definition sampleLayer : BMNGOneImageLayer.t :=
  {| BMNGOneImageLayer.imagePath := samplePath;
     BMNGOneImageLayer.currentRetrievals := [];
     BMNGOneImageLayer.absentResourceList := ∅;
     BMNGOneImageLayer.currentTilesInvalid := false;
     BMNGOneImageLayer.gpuResourceCache := ∅;
     BMNGOneImageLayer.outstanding := [];
     BMNGOneImageLayer.redraws := 0 |}.

Definition sampleWorld : BMNGOneImageLayer.World :=
  {| BMNGOneImageLayer.clock := 0; BMNGOneImageLayer.layer := sampleLayer |}.

Definition sampleRequest (suppress : bool) : BMNGOneImageLayer.Request :=
  {| BMNGOneImageLayer.requestPath := samplePath;
     BMNGOneImageLayer.requestUrl := "http://localhost" +:+ samplePath;
     BMNGOneImageLayer.suppressRedraw := suppress |}.

Definition sampleTexture : GpuResourceCache.Texture :=
  {| GpuResourceCache.source := "http://localhost" +:+ samplePath;
     GpuResourceCache.size := 8388608 |}.

Definition sampleSlot (n : string) (t : Z) : LayerName.t :=
  {| LayerName.name := Some n; LayerName.month := Some n;
     LayerName.time := t |}.

(** Slots at 00:00 and 03:00, and at 00:00, 03:00 and 06:00. *)
Definition twoSlots : list LayerName.t :=
  [sampleSlot "00" 0; sampleSlot "01" 10800000].

Definition threeSlots : list LayerName.t :=
  [sampleSlot "00" 0; sampleSlot "01" 10800000; sampleSlot "02" 21600000].

(** The sequence 2016-07-12/2016-07-18/PT3H of the constructors, and a new
    [WeatherLayer] over it, shown at 2016-07-12, with [availableTimes] still
    empty. *)
Definition defaultSequence : PeriodicTimeSequence.t :=
  PeriodicTimeSequence.create 1468281600000 1468800000000 10800000.

Definition newWeatherLayer : WeatherLayer.t :=
  WeatherLayer.create [] 1468281600000 defaultSequence.

(** The sample layer with its fetch issued at time 10 by [prePopulate];
    then with that fetch failed at time 100. *)
Definition sampleInFlight : BMNGOneImageLayer.t :=
  BMNGOneImageLayer.retrieveImage sampleUrl 60000 samplePath true 10
    sampleLayer.

Definition sampleIssued : BMNGOneImageLayer.World :=
  {| BMNGOneImageLayer.clock := 10;
     BMNGOneImageLayer.layer := sampleInFlight |}.

Definition sampleFailed : BMNGOneImageLayer.t :=
  BMNGOneImageLayer.onerror (sampleRequest true) 100
    (BMNGOneImageLayer.settle 0 sampleInFlight).

(** While the fetch of the sample path is outstanding, the image of slot
    "06" is fetched and loads; then the fetch of the sample path fails. *)
Definition otherPath : string := "/standalonedata/WORLD-CED/test/06.png".

Definition sampleEvents : list BMNGOneImageLayer.Event :=
  [BMNGOneImageLayer.Retrieve otherPath false 20;
   BMNGOneImageLayer.Loaded 1 (Some sampleTexture) 30].

Definition sampleBeforeFailure : BMNGOneImageLayer.World :=
  default sampleIssued
    (BMNGOneImageLayer.run sampleUrl 60000 sampleEvents sampleIssued).

Definition sampleAfterFailure : BMNGOneImageLayer.World :=
  default sampleBeforeFailure
    (BMNGOneImageLayer.step sampleUrl 60000
       (BMNGOneImageLayer.Failed 0 40) sampleBeforeFailure).

(** A world window whose cache is empty. *)
Definition emptyWindow : OneImageLayer.WorldWindow :=
  {| OneImageLayer.gpuResourceCache := ∅; OneImageLayer.retrieved := [] |}.

(** A [WeatherLayer] whose three slots carry a [name], shown at 03:00, and
    one whose only slot carries the name "constructor". *)
Definition namedWeatherLayer : WeatherLayer.t :=
  WeatherLayer.Build [] 10800000 defaultSequence "/data/" ∅ threeSlots 1
    None false [].

Definition inheritedNameLayer : WeatherLayer.t :=
  WeatherLayer.Build [] 0 defaultSequence "/data/" ∅
    [sampleSlot "constructor" 0] 1 None false [].





(** A cache entry; the events of the script over a layer without slots:
    the polling callback runs, three images arrive, the polling callback
    runs again. *)
Definition sampleEntry : GpuResourceCache.Entry :=
  {| GpuResourceCache.resource := sampleTexture;
     GpuResourceCache.entrySize := 8388608 |}.

(** The sample layer with the sample image in the cache. *)
Definition sampleCachedLayer : BMNGOneImageLayer.t :=
  {| BMNGOneImageLayer.imagePath := samplePath;
     BMNGOneImageLayer.currentRetrievals := [];
     BMNGOneImageLayer.absentResourceList := ∅;
     BMNGOneImageLayer.currentTilesInvalid := false;
     BMNGOneImageLayer.gpuResourceCache := {[samplePath := sampleEntry]};
     BMNGOneImageLayer.outstanding := [];
     BMNGOneImageLayer.redraws := 0 |}.




(** * Properties *)

(** ** The nearest-time resolver *)

Section Nearest.
Import JS WeatherLayer.
Implicit Types (l : list LayerName.t) (q : Z) (a b e : LayerName.t).

Lemma ascending_cons a l : ascending (a :: l) = true → ascending l = true.
Proof.
  destruct l as [|b l]; [done|]. simpl.
  intros H. apply andb_prop in H. tauto.
Qed.

Lemma ascending_head_lt l : ∀ a j b,
  ascending (a :: l) = true → l !! j = Some b →
  LayerName.time a < LayerName.time b.
Proof.
  induction l as [|c l IH]; intros a j b Hasc Hj; [done|].
  simpl in Hasc. apply andb_prop in Hasc as [Hac Hrest].
  apply bool_decide_eq_true in Hac.
  destruct j as [|j]; simpl in Hj.
  - by inversion Hj; subst.
  - specialize (IH c j b Hrest Hj). lia.
Qed.

Lemma ascending_lookup_lt l : ∀ i j a b,
  ascending l = true → l !! i = Some a → l !! j = Some b → (i < j)%nat →
  LayerName.time a < LayerName.time b.
Proof.
  induction l as [|c l IH]; intros i j a b Hasc Hi Hj Hlt; [done|].
  destruct j as [|j]; [lia|]. simpl in Hj.
  destruct i as [|i]; simpl in Hi.
  - inversion Hi; subst. by eapply ascending_head_lt.
  - eapply (IH i j); eauto using ascending_cons. lia.
Qed.

Lemma ascending_lookup_le l i j a b :
  ascending l = true → l !! i = Some a → l !! j = Some b → (i ≤ j)%nat →
  LayerName.time a ≤ LayerName.time b.
Proof.
  intros Hasc Hi Hj Hle. destruct (decide (i = j)) as [->|Hne].
  - rewrite Hi in Hj. inversion Hj. lia.
  - assert (LayerName.time a < LayerName.time b); [|lia].
    eapply ascending_lookup_lt; eauto. lia.
Qed.

(** The loop, unrolled once. *)
Lemma scanName_step q a b l :
  scanName q (a :: b :: l) =
    if decide (LayerName.time a <= q ∧ q <= LayerName.time b) then
      if decide (q - LayerName.time a < LayerName.time b - q)
      then LayerName.name a else LayerName.name b
    else scanName q (b :: l).
Proof. reflexivity. Qed.

Lemma scanIndex_step q k a b l :
  scanIndex q k (a :: b :: l) =
    if decide (LayerName.time a <= q ∧ q <= LayerName.time b) then
      if decide (q - LayerName.time a < LayerName.time b - q)
      then Some k else Some (S k)
    else scanIndex q (S k) (b :: l).
Proof. reflexivity. Qed.

Lemma scanIndex_bounds q l : ∀ k i,
  scanIndex q k l = Some i → (k ≤ i < k + length l)%nat.
Proof.
  induction l as [|a l IH]; intros k i Hi; [done|].
  destruct l as [|b l]; [done|].
  rewrite scanIndex_step in Hi.
  repeat case_decide; simplify_eq; cbn; try lia.
  apply IH in Hi. cbn in Hi. lia.
Qed.

(** The name returned by the loop is the [name] of the entry at the
    position computed by [scanIndex]. *)
Lemma scanName_scanIndex q l : ∀ k,
  scanName q l = (i ← scanIndex q k l; e ← l !! (i - k)%nat; LayerName.name e).
Proof.
  induction l as [|a l IH]; intros k; [done|].
  destruct l as [|b l]; [done|].
  rewrite scanName_step, scanIndex_step.
  repeat case_decide.
  - cbn. by rewrite Nat.sub_diag.
  - cbn. by replace (S k - k)%nat with 1%nat by lia.
  - rewrite (IH (S k)).
    destruct (scanIndex q (S k) (b :: l)) as [i|] eqn:Hi; [|done].
    apply scanIndex_bounds in Hi. cbn.
    by replace (i - k)%nat with (S (i - S k)) by lia.
Qed.

(** A query between the first and the last timestamp is bracketed by some
    adjacent pair, so the loop returns from inside. *)
Lemma scanIndex_found q l : ∀ k a b,
  head l = Some a → last l = Some b →
  LayerName.time a ≤ q → q < LayerName.time b →
  is_Some (scanIndex q k l).
Proof.
  induction l as [|c l IH]; intros k a b Hhd Hlast Ha Hb; [done|].
  simpl in Hhd. inversion Hhd; subst c.
  destruct l as [|c l].
  - simpl in Hlast. inversion Hlast; subst. lia.
  - rewrite scanIndex_step. repeat case_decide; eauto.
    apply (IH (S k) c b); [done|done|lia|done].
Qed.

(** With ascending timestamps the loop stops at the pair that holds the
    query strictly above its left timestamp. *)
Lemma scanIndex_bracket q l : ∀ k i a b,
  ascending l = true → l !! i = Some a → l !! S i = Some b →
  LayerName.time a < q → q ≤ LayerName.time b →
  scanIndex q k l =
    Some (if decide (q - LayerName.time a < LayerName.time b - q)
          then (k + i)%nat else S (k + i)).
Proof.
  induction l as [|c l IH]; intros k i a b Hasc Hi HSi Ha Hb; [done|].
  destruct l as [|d l]; [done|].
  destruct i as [|i].
  - simpl in Hi, HSi. simplify_eq. rewrite scanIndex_step.
    rewrite decide_True by lia. rewrite Nat.add_0_r. by case_decide.
  - rewrite scanIndex_step.
    assert (LayerName.time d ≤ LayerName.time a) as Hda.
    { eapply (ascending_lookup_le (c :: d :: l) 1 (S i)); eauto. lia. }
    rewrite decide_False by lia.
    rewrite (IH (S k) i a b); eauto using ascending_cons.
    replace (S k + i)%nat with (k + S i)%nat by lia. done.
Qed.

(** [nearestLayerName] returns the [name] of the entry at [nearestIndex]. *)
Lemma nearestLayerName_nearestIndex l q :
  l ≠ [] →
  nearestLayerName l q =
    Normal (i ← nearestIndex l q; e ← l !! i; LayerName.name e).
Proof.
  intros Hne. unfold nearestLayerName, nearestIndex.
  destruct l as [|a l]; [done|].
  destruct (last (a :: l)) as [b|] eqn:Hlast.
  2:{ by apply last_None in Hlast. }
  repeat case_decide.
  - done.
  - cbn. rewrite last_lookup in Hlast. cbn in Hlast.
    rewrite Nat.sub_0_r. by rewrite Hlast.
  - f_equal. rewrite (scanName_scanIndex q (a :: l) 0).
    destruct (scanIndex q 0 (a :: l)); [|done]. cbn.
    by rewrite Nat.sub_0_r.
Qed.

(** C5: on a non-empty list of entries with ascending timestamps the
    resolver always selects an entry of the list: a query at or before the
    first timestamp selects the first entry, a query at or after the last
    timestamp selects the last entry, every query selects some entry, and in
    particular the first and the last timestamp themselves select the first
    and the last entry. The returned value is the [name] of the selected
    entry. *)
Theorem nearest_total_and_clamped l first final q :
  head l = Some first → last l = Some final → ascending l = true →
  (q ≤ LayerName.time first →
     nearestIndex l q = Some 0%nat ∧
     nearestLayerName l q = Normal (LayerName.name first)) ∧
  (LayerName.time final ≤ q →
     nearestIndex l q = Some (length l - 1)%nat ∧
     nearestLayerName l q = Normal (LayerName.name final)) ∧
  (∃ i e, nearestIndex l q = Some i ∧ l !! i = Some e ∧
          nearestLayerName l q = Normal (LayerName.name e)) ∧
  nearestIndex l (LayerName.time first) = Some 0%nat ∧
  nearestIndex l (LayerName.time final) = Some (length l - 1)%nat.
Proof.
  intros Hhd Hlast Hasc.
  assert (l ≠ []) as Hne by (intros ->; done).
  assert (l !! 0%nat = Some first) as H0 by (by rewrite <- head_lookup).
  assert (l !! (length l - 1)%nat = Some final) as Hn.
  { rewrite last_lookup in Hlast.
    by replace (length l - 1)%nat with (pred (length l)) by lia. }
  assert (∀ x, x ≤ LayerName.time first → nearestIndex l x = Some 0%nat)
    as Hlow.
  { intros x Hx. unfold nearestIndex. destruct l as [|a l']; [done|].
    rewrite Hlast. simpl in Hhd. simplify_eq. by rewrite decide_True. }
  assert (∀ x, LayerName.time final ≤ x →
               nearestIndex l x = Some (length l - 1)%nat) as Hhigh.
  { intros x Hx.
    destruct (decide (x ≤ LayerName.time first)) as [Hle|Hgt].
    - rewrite (Hlow x Hle). f_equal.
      destruct (decide (length l - 1 = 0)%nat) as [|Hlen]; [done|].
      assert (LayerName.time first < LayerName.time final); [|lia].
      eapply (ascending_lookup_lt l 0 (length l - 1)); eauto. lia.
    - unfold nearestIndex. destruct l as [|a l']; [done|].
      rewrite Hlast. simpl in Hhd. simplify_eq.
      rewrite decide_False by done. by rewrite decide_True. }
  assert (∀ x i e, nearestIndex l x = Some i → l !! i = Some e →
                   nearestLayerName l x = Normal (LayerName.name e))
    as Hname.
  { intros x i e Hi He. rewrite nearestLayerName_nearestIndex by done.
    rewrite Hi. cbn. by rewrite He. }
  split_and!.
  - intros Hq. split; [by apply Hlow|]. eapply Hname; eauto.
  - intros Hq. split; [by apply Hhigh|]. eapply Hname; eauto.
  - destruct (decide (q ≤ LayerName.time first)) as [Hle|Hgt].
    { exists 0%nat, first. split_and!; eauto. }
    destruct (decide (LayerName.time final ≤ q)) as [Hge|Hlt].
    { exists (length l - 1)%nat, final. split_and!; eauto. }
    destruct (scanIndex_found q l 0 first final) as [i Hi];
      [done|done|lia|lia|].
    pose proof (scanIndex_bounds _ _ _ _ Hi) as Hb.
    destruct (lookup_lt_is_Some_2 l i) as [e He]; [lia|].
    assert (nearestIndex l q = Some i) as Hidx.
    { unfold nearestIndex. destruct l as [|a l']; [done|].
      rewrite Hlast. simpl in Hhd. simplify_eq.
      by rewrite !decide_False by done. }
    exists i, e. split_and!; eauto.
  - apply Hlow. lia.
  - apply Hhigh. lia.
Qed.

(** Three slots three hours apart, queried far after the last one. *)
Lemma nearest_total_and_clamped_witness :
  nearestIndex threeSlots 30000000 = Some 2%nat ∧
  nearestLayerName threeSlots 30000000 = Normal (Some "02").
Proof.
  pose proof (nearest_total_and_clamped threeSlots (sampleSlot "00" 0)
                (sampleSlot "02" 21600000) 30000000
                eq_refl eq_refl eq_refl) as (_ & Hhigh & _).
  apply Hhigh. simpl. lia.
Defined.

(** C2, as stated, fails: slots at 00:00 and 03:00 and the query 01:30,
    which is equidistant from both; the resolver selects the later slot
    "01", not the earlier slot "00". *)
Lemma nearest_tie_selects_later_slot :
  ascending twoSlots = true ∧
  twoSlots !! 0%nat = Some (sampleSlot "00" 0) ∧
  twoSlots !! 1%nat = Some (sampleSlot "01" 10800000) ∧
  0 < 5400000 < 10800000 ∧ 5400000 - 0 = 10800000 - 5400000 ∧
  nearestIndex twoSlots 5400000 = Some 1%nat ∧
  nearestIndex twoSlots 5400000 ≠ Some 0%nat ∧
  nearestLayerName twoSlots 5400000 = Normal (Some "01") ∧
  nearestLayerName twoSlots 5400000 ≠ Normal (Some "00").
Proof. split_and!; try done; vm_compute; congruence. Qed.

(** C2, amended: on a list of entries with ascending timestamps, a query
    exactly equidistant between two adjacent entries selects the later
    (right) one of the two, and the returned value is its [name]. *)
Theorem nearest_tie_break l i leftEntry rightEntry q :
  ascending l = true →
  l !! i = Some leftEntry → l !! S i = Some rightEntry →
  q - LayerName.time leftEntry = LayerName.time rightEntry - q →
  nearestIndex l q = Some (S i) ∧
  nearestLayerName l q = Normal (LayerName.name rightEntry).
Proof.
  intros Hasc Hi HSi Htie.
  assert (LayerName.time leftEntry < LayerName.time rightEntry) as Hlr.
  { eapply (ascending_lookup_lt l i (S i)); eauto. }
  assert (l ≠ []) as Hne by (intros ->; done).
  assert (nearestIndex l q = Some (S i)) as Hidx.
  { unfold nearestIndex. destruct l as [|a l'] eqn:El; [done|].
    rewrite <- El in *.
    destruct (last l) as [b|] eqn:Hlast; [|by apply last_None in Hlast].
    assert (l !! 0%nat = Some a) as H0 by (by rewrite El).
    assert (l !! pred (length l) = Some b) as Hn
      by (by rewrite <- last_lookup).
    assert (LayerName.time a ≤ LayerName.time leftEntry).
    { eapply (ascending_lookup_le l 0 i); eauto. lia. }
    assert (LayerName.time rightEntry ≤ LayerName.time b).
    { eapply (ascending_lookup_le l (S i) (pred (length l))); eauto.
      apply lookup_lt_Some in HSi. lia. }
    rewrite !decide_False by lia.
    rewrite (scanIndex_bracket q l 0 i leftEntry rightEntry)
      by (done || lia).
    rewrite decide_False by lia. done. }
  split; [done|].
  rewrite nearestLayerName_nearestIndex by done.
  rewrite Hidx. cbn. by rewrite HSi.
Qed.

(** Slots at 00:00, 03:00 and 06:00; the query 04:30 is equidistant from
    the last two. *)
Lemma nearest_tie_break_witness :
  nearestIndex threeSlots 16200000 = Some 2%nat ∧
  nearestLayerName threeSlots 16200000 = Normal (Some "02").
Proof.
  apply (nearest_tie_break threeSlots 1 (sampleSlot "01" 10800000)
           (sampleSlot "02" 21600000));
    [reflexivity|reflexivity|reflexivity|simpl; lia].
Defined.

End Nearest.

(** ** Generation of the slots *)

Section Build.
Import JS WeatherLayer.





(** The loop test [i < length] agrees with the number of rounds. *)
Lemma rounds_less (n : Number) (k i : nat) :
  rounds n = Some k → less i n = true ↔ (i < k)%nat.
Proof.
  destruct n as [q| | |]; simpl; intros Hk; simplify_eq; [|split; (done||lia)..].
  destruct (Qlt_le_dec (inject_Z (Z.of_nat i)) q) as [Hlt|Hge]; split;
    try done; intros H.
  - assert (Z.of_nat i < Qceiling q); [|lia].
    apply Qlt_le_trans with (z := inject_Z (Qceiling q)) in Hlt;
      [|apply Qle_ceiling].
    by rewrite <- Zlt_Qlt in Hlt.
  - exfalso.
    assert (Qceiling q ≤ Z.of_nat i); [|lia].
    rewrite <- (Qceiling_Z (Z.of_nat i)). by apply Qceiling_resp_le.
Qed.

Lemma ensureSubLayer_layerNames (w : WeatherLayer.t) (l : list LayerName.t) :
  layerNames (foldl ensureSubLayer w l) = layerNames w.
Proof.
  revert w. induction l as [|e l IH]; intros w; [done|].
  simpl. rewrite IH. unfold ensureSubLayer.
  destruct (layers w !! _); [done|]. by destruct (inherited _).
Qed.


(** Keys of the generated slots at some counters. *)
Lemma generated_keys_sample :
  LayerName.month <$> (generated 0 1 <$> [0; 1; 9; 10; 48; 100]%nat)
  = [Some "00"; Some "01"; Some "09"; Some "10"; Some "48"; Some "100"].
Proof. reflexivity. Qed.




End Build.


(** ** Retrieval of the image *)

Section Retrieval.
Import JS GpuResourceCache AbsentResourceList BMNGOneImageLayer.

Variable resourceUrlForTile : string → option string.
Variable coolDown : Z.

Local Abbreviation retrieveImage := (retrieveImage resourceUrlForTile coolDown).
Local Abbreviation step := (step resourceUrlForTile coolDown).
Local Abbreviation run := (run resourceUrlForTile coolDown).
Local Abbreviation invariant := (retrievalInvariant resourceUrlForTile coolDown).

Implicit Types (s : BMNGOneImageLayer.t) (w : World) (r : Request)
  (path : string) (marks : gmap string Z).

(** *** The absent-resource tracker *)

Lemma isResourceAbsent_later marks path now later :
  now ≤ later →
  isResourceAbsent coolDown now marks path = false →
  isResourceAbsent coolDown later marks path = false.
Proof.
  unfold isResourceAbsent. intros Hle.
  destruct (marks !! path) as [t0|]; [|done].
  rewrite !bool_decide_eq_false. lia.
Qed.

Lemma isResourceAbsent_unmarked marks path now :
  marks !! path = None → isResourceAbsent coolDown now marks path = false.
Proof. unfold isResourceAbsent. by intros ->. Qed.

(** *** What [retrieveImage] does, case by case *)

Lemma retrieveImage_in_flight s path suppress now :
  path ∈ currentRetrievals s → retrieveImage path suppress now s = s.
Proof.
  intros Hin. unfold BMNGOneImageLayer.retrieveImage.
  by rewrite decide_True.
Qed.

Lemma retrieveImage_absent s path suppress now :
  isResourceAbsent coolDown now (absentResourceList s) path = true →
  retrieveImage path suppress now s = s.
Proof.
  intros Habs. unfold BMNGOneImageLayer.retrieveImage.
  case_decide; [done|]. by rewrite Habs.
Qed.

Lemma retrieveImage_issues s path suppress now url :
  path ∉ currentRetrievals s →
  isResourceAbsent coolDown now (absentResourceList s) path = false →
  resourceUrlForTile path = Some url → url ≠ "" →
  retrieveImage path suppress now s =
    {| imagePath := imagePath s;
       currentRetrievals := currentRetrievals s ++ [path];
       absentResourceList := absentResourceList s;
       currentTilesInvalid := currentTilesInvalid s;
       gpuResourceCache := gpuResourceCache s;
       outstanding :=
         outstanding s ++ [{| requestPath := path; requestUrl := url;
                              suppressRedraw := suppress |}];
       redraws := redraws s |}.
Proof.
  intros Hnot Habs Hurl Hne. unfold BMNGOneImageLayer.retrieveImage.
  rewrite decide_False by done. rewrite Habs, Hurl.
  by destruct url.
Qed.

(** The call either changes nothing but [currentTilesInvalid], or issues
    exactly one fetch for [path]. *)
Lemma retrieveImage_cases s path suppress now :
  (currentRetrievals (retrieveImage path suppress now s)
     = currentRetrievals s ∧
   outstanding (retrieveImage path suppress now s) = outstanding s ∧
   absentResourceList (retrieveImage path suppress now s)
     = absentResourceList s ∧
   gpuResourceCache (retrieveImage path suppress now s)
     = gpuResourceCache s ∧
   redraws (retrieveImage path suppress now s) = redraws s ∧
   imagePath (retrieveImage path suppress now s) = imagePath s)
  ∨
  (∃ url, (path ∉ currentRetrievals s) ∧
          (isResourceAbsent coolDown now (absentResourceList s) path
             = false) ∧
          resourceUrlForTile path = Some url ∧ url ≠ "" ∧
          retrieveImage path suppress now s =
            {| imagePath := imagePath s;
               currentRetrievals := currentRetrievals s ++ [path];
               absentResourceList := absentResourceList s;
               currentTilesInvalid := currentTilesInvalid s;
               gpuResourceCache := gpuResourceCache s;
               outstanding :=
                 outstanding s
                   ++ [{| requestPath := path; requestUrl := url;
                          suppressRedraw := suppress |}];
               redraws := redraws s |}).
Proof.
  unfold BMNGOneImageLayer.retrieveImage.
  case_decide as Hin; [by left|].
  destruct (isResourceAbsent _ _ _ _) eqn:Habs; [by left|].
  destruct (resourceUrlForTile path) as [[|c url]|] eqn:Hurl;
    [by left| |by left].
  right. exists (String c url). by split_and!.
Qed.

(** *** The [onload] handler *)

(** [Logger] does not resolve, so the handler ends at its first statement,
    whatever the fetch and the payload, and leaves the layer as it was. *)
Lemma onload_throws r (texture : option Texture) s :
  onload r texture s = Throw ReferenceError.
Proof. reflexivity. Qed.

Lemma afterOnload_unchanged r (texture : option Texture) s :
  afterOnload r texture s = s.
Proof. unfold afterOnload. by rewrite onload_throws. Qed.

Lemma step_Loaded w k r (texture : option Texture) now :
  clock w ≤ now → outstanding (layer w) !! k = Some r →
  step (Loaded k texture now) w
  = Some {| clock := now; layer := settle k (layer w) |}.
Proof.
  intros Hnow Hk. unfold BMNGOneImageLayer.step. cbn [eventTime].
  rewrite decide_False by lia. rewrite Hk. cbn [mbind option_bind].
  by rewrite afterOnload_unchanged.
Qed.

(** *** The invariant of the event loop *)

Lemma filter_other_paths (l : list Request) : ∀ k r,
  NoDup (requestPath <$> l) → l !! k = Some r →
  filter (λ p, p ≠ requestPath r) (requestPath <$> l)
    = requestPath <$> delete k l.
Proof.
  induction l as [|x l IH]; intros k r Hnd Hk; [done|].
  rewrite fmap_cons in Hnd. apply NoDup_cons in Hnd as [Hx Hnd].
  destruct k as [|k]; simpl in Hk.
  - simplify_eq. rewrite fmap_cons.
    rewrite filter_cons_False by (intros H; by apply H).
    simpl. clear IH Hnd. induction (requestPath <$> l) as [|y ys IHy];
      [done|].
    apply not_elem_of_cons in Hx as [Hne Hx].
    rewrite filter_cons_True by done. by rewrite IHy.
  - assert (requestPath x ≠ requestPath r) as Hne.
    { intros Heq. apply Hx. rewrite Heq.
      apply list_elem_of_fmap. exists r. split; [done|].
      by eapply list_elem_of_lookup_2. }
    rewrite fmap_cons, filter_cons_True by done.
    simpl. by rewrite (IH k r).
Qed.

Lemma elem_of_delete_other (l : list Request) k r r' :
  NoDup (requestPath <$> l) → l !! k = Some r → r' ∈ delete k l →
  r' ∈ l ∧ requestPath r' ≠ requestPath r.
Proof.
  intros Hnd Hk Hin. split.
  - by eapply list_elem_of_delete_inv.
  - assert (requestPath r' ∈ requestPath <$> delete k l) as Hp.
    { apply list_elem_of_fmap. eauto. }
    rewrite <- (filter_other_paths l k r Hnd Hk) in Hp.
    by apply list_elem_of_filter in Hp as [? _].
Qed.

Lemma invariant_initial w : initial w → invariant w.
Proof.
  intros [Hcr Hout]. unfold retrievalInvariant. rewrite Hout.
  split_and!; [|constructor|..]; intros r Hr; by apply elem_of_nil in Hr.
Qed.

(** A call of [retrieveImage] at or after the current time keeps the
    invariant. *)
Lemma invariant_retrieveImage w path suppress now :
  clock w ≤ now → invariant w →
  invariant {| clock := now;
               layer := retrieveImage path suppress now (layer w) |}.
Proof.
  intros Hnow (Hcr & Hnd & Hurl & Habs).
  destruct (retrieveImage_cases (layer w) path suppress now)
    as [(E1 & E2 & E3 & _)|(url & Hnot & Hna & Hu & Hne & ->)];
    unfold retrievalInvariant; cbn [layer clock].
  - rewrite E1, E2, E3. split_and!; [done|done|done|].
    intros r Hr. eapply isResourceAbsent_later; eauto.
  - cbn [currentRetrievals outstanding absentResourceList].
    split_and!.
    + intros r [Hr|Hr]%elem_of_app; apply elem_of_app.
      * left. by apply Hcr.
      * right. apply list_elem_of_singleton in Hr. subst.
        by apply list_elem_of_singleton.
    + rewrite fmap_app. apply NoDup_app.
      split_and!; [done| |apply NoDup_singleton].
      intros x Hx Hx'. apply list_elem_of_singleton in Hx'. subst x.
      apply list_elem_of_fmap in Hx as (r & Hpath & Hr).
      cbn in Hpath. apply Hnot. rewrite Hpath. by apply Hcr.
    + intros r [Hr|Hr]%elem_of_app; [by apply Hurl|].
      apply list_elem_of_singleton in Hr. by subst.
    + intros r [Hr|Hr]%elem_of_app.
      * eapply isResourceAbsent_later; eauto.
      * apply list_elem_of_singleton in Hr. by subst.
Qed.

(** The completion of the [k]-th outstanding fetch keeps the invariant,
    whether or not the handler takes the path of its fetch out of
    [currentRetrievals] and whatever it does to the absent mark of that
    path. *)
Lemma invariant_settled w k r s' now :
  clock w ≤ now → invariant w → outstanding (layer w) !! k = Some r →
  (∀ path, path ∈ currentRetrievals (layer w) → path ≠ requestPath r →
           path ∈ currentRetrievals s') →
  outstanding s' = delete k (outstanding (layer w)) →
  (∀ path, path ≠ requestPath r →
           absentResourceList s' !! path
             = absentResourceList (layer w) !! path) →
  invariant {| clock := now; layer := s' |}.
Proof.
  intros Hnow (Hcr & Hnd & Hurl & Habs) Hk Ecr Eout Emarks.
  unfold retrievalInvariant; cbn [layer clock].
  rewrite Eout. split_and!.
  - intros r' Hr'.
    destruct (elem_of_delete_other _ _ _ _ Hnd Hk Hr') as [Hin Hne].
    apply Ecr; [by apply Hcr|done].
  - rewrite <- (filter_other_paths _ k r) by done. by apply NoDup_filter.
  - intros r' Hr'.
    destruct (elem_of_delete_other _ _ _ _ Hnd Hk Hr') as [Hin _].
    by apply Hurl.
  - intros r' Hr'.
    destruct (elem_of_delete_other _ _ _ _ Hnd Hk Hr') as [Hin Hne].
    apply (isResourceAbsent_later _ _ (clock w)); [done|].
    specialize (Habs r' Hin). unfold isResourceAbsent in *.
    by rewrite Emarks.
Qed.

Lemma invariant_step e w w' : invariant w → step e w = Some w' → invariant w'.
Proof.
  intros Hinv Hstep. unfold BMNGOneImageLayer.step in Hstep.
  case_decide as Htime; [done|]. apply Z.nlt_ge in Htime.
  destruct e as [path suppress now|now|k texture now|k now];
    cbn [eventTime] in *.
  - simplify_option_eq. by apply invariant_retrieveImage.
  - unfold BMNGOneImageLayer.prePopulate in Hstep.
    destruct (isImageLayerInMemory _ _); simplify_option_eq.
    + destruct Hinv as (Hcr & Hnd & Hurl & Habs).
      unfold retrievalInvariant; cbn [layer clock].
      split_and!; [done|done|done|].
      intros r Hr. eapply isResourceAbsent_later; eauto.
    + by apply invariant_retrieveImage.
  - destruct (outstanding (layer w) !! k) as [r|] eqn:Hk; [|done].
    cbn [mbind option_bind] in Hstep.
    rewrite afterOnload_unchanged in Hstep. simplify_eq.
    by eapply (invariant_settled w k r).
  - destruct (outstanding (layer w) !! k) as [r|] eqn:Hk;
      simplify_option_eq.
    eapply (invariant_settled w k r); eauto.
    + intros path Hin Hne. cbn. by apply list_elem_of_filter.
    + intros path Hne. cbn.
      unfold markResourceAbsent. by rewrite lookup_insert_ne.
Qed.

Lemma invariant_run es : ∀ w w',
  invariant w → run es w = Some w' → invariant w'.
Proof.
  induction es as [|e es IH]; intros w w' Hinv Hrun; simpl in Hrun.
  - by simplify_eq.
  - destruct (step e w) as [w1|] eqn:Hstep; [|done].
    simpl in Hrun. eauto using invariant_step.
Qed.

(** *** What the events change *)

(** No event changes the cache, the number of redraw events or the image
    path. *)
Lemma step_cache e w w' :
  step e w = Some w' →
  gpuResourceCache (layer w') = gpuResourceCache (layer w) ∧
  redraws (layer w') = redraws (layer w) ∧
  imagePath (layer w') = imagePath (layer w).
Proof.
  intros Hstep. unfold BMNGOneImageLayer.step in Hstep.
  case_decide as Htime; [done|].
  destruct e as [p suppress now|now|k texture now|k now].
  - simplify_option_eq.
    by destruct (retrieveImage_cases (layer w) p suppress now)
      as [(_ & _ & _ & -> & -> & ->)|(url & _ & _ & _ & _ & ->)].
  - unfold BMNGOneImageLayer.prePopulate in Hstep.
    destruct (isImageLayerInMemory _ _); simplify_option_eq; [done|].
    by destruct (retrieveImage_cases (layer w) (imagePath (layer w)) true now)
      as [(_ & _ & _ & -> & -> & ->)|(url & _ & _ & _ & _ & ->)].
  - destruct (outstanding (layer w) !! k) as [r|] eqn:Hk; [|done].
    cbn [mbind option_bind] in Hstep.
    rewrite afterOnload_unchanged in Hstep. by simplify_eq.
  - destruct (outstanding (layer w) !! k) as [r|] eqn:Hk;
      by simplify_option_eq.
Qed.

Lemma run_cache es : ∀ w w',
  run es w = Some w' →
  gpuResourceCache (layer w') = gpuResourceCache (layer w) ∧
  redraws (layer w') = redraws (layer w) ∧
  imagePath (layer w') = imagePath (layer w).
Proof.
  induction es as [|e es IH]; intros w w' Hrun; simpl in Hrun.
  - by simplify_eq.
  - destruct (step e w) as [w1|] eqn:Hstep; [|done]. simpl in Hrun.
    destruct (IH w1 w' Hrun) as (-> & -> & ->). by apply (step_cache e).
Qed.

(** *** The claims about retrieval *)

(** C1: in every world reached by the event loop from a new layer, no two
    outstanding fetches are for the same image path, every outstanding
    fetch has its path in [currentRetrievals], and a call of
    [retrieveImage] for a path that is in [currentRetrievals] changes
    nothing: it issues no fetch. *)
Theorem at_most_one_fetch_per_path es w0 w path suppress now :
  initial w0 → run es w0 = Some w →
  NoDup (requestPath <$> outstanding (layer w)) ∧
  (path ∈ (requestPath <$> outstanding (layer w)) →
   path ∈ currentRetrievals (layer w)) ∧
  (path ∈ currentRetrievals (layer w) →
   retrieveImage path suppress now (layer w) = layer w).
Proof.
  intros Hinit Hrun.
  destruct (invariant_run es w0 w (invariant_initial w0 Hinit) Hrun)
    as (Hcr & Hnd & _).
  split_and!.
  - done.
  - intros (r & -> & Hr)%list_elem_of_fmap. by apply Hcr.
  - apply retrieveImage_in_flight.
Qed.

(** C7 at the sample layer: a fetch of the sample image is issued by
    [retrieveImage] without [suppressRedraw] at time 10 and loads at time
    20 with a texture. The [onload] handler throws the ReferenceError of
    [Logger] at its first statement: the texture is not in the cache, the
    path is still in [currentRetrievals], and no redraw event has been
    dispatched. The handler does so for every fetch and payload. *)
Theorem onload_throws_before_caching :
  (∀ r texture s, onload r texture s = Throw ReferenceError) ∧
  ∃ w1 w2,
    BMNGOneImageLayer.step sampleUrl 60000 (Retrieve samplePath false 10)
      sampleWorld = Some w1 ∧
    outstanding (layer w1) = [sampleRequest false] ∧
    BMNGOneImageLayer.step sampleUrl 60000
      (Loaded 0 (Some sampleTexture) 20) w1 = Some w2 ∧
    gpuResourceCache (layer w2) !! samplePath = None ∧
    isImageLayerInMemory samplePath (layer w2) = false ∧
    currentRetrievals (layer w2) = [samplePath] ∧
    outstanding (layer w2) = [] ∧
    redraws (layer w2) = 0%nat.
Proof.
  split; [apply onload_throws|].
  eexists _, _. split; [vm_compute; reflexivity|].
  split; [reflexivity|]. split; [vm_compute; reflexivity|].
  by split_and!.
Qed.

(** C6: the [onerror] handler takes the path of its fetch out of
    [currentRetrievals], marks it absent at the time the handler runs and
    dispatches no redraw event; and for a path marked absent, a call of
    [retrieveImage] before the cool-down has passed changes nothing, while
    a call once it has passed issues one fetch (the path not being in
    flight and having a URL). *)
Theorem onerror_marks_absent_and_suppresses r failedAt s path markedAt s0
    later suppress :
  absentResourceList s0 !! path = Some markedAt →
  let s' := onerror r failedAt s in
  (requestPath r ∉ currentRetrievals s') ∧
  absentResourceList s' !! requestPath r = Some failedAt ∧
  redraws s' = redraws s ∧
  outstanding s' = outstanding s ∧
  (later - markedAt < coolDown →
   retrieveImage path suppress later s0 = s0) ∧
  (coolDown ≤ later - markedAt → path ∉ currentRetrievals s0 →
   ∀ url, resourceUrlForTile path = Some url → url ≠ "" →
     outstanding (retrieveImage path suppress later s0)
       = outstanding s0 ++ [{| requestPath := path; requestUrl := url;
                               suppressRedraw := suppress |}] ∧
     currentRetrievals (retrieveImage path suppress later s0)
       = currentRetrievals s0 ++ [path]).
Proof.
  intros Hmark. cbn zeta.
  unfold onerror, markResourceAbsent.
  cbn [currentRetrievals absentResourceList redraws outstanding
       removeFromCurrentRetrievals].
  rewrite lookup_insert_eq.
  split. { intros Hin. by apply list_elem_of_filter in Hin as [? _]. }
  split; [done|]. split; [done|]. split; [done|]. split.
  - intros Hearly. apply retrieveImage_absent.
    unfold isResourceAbsent. rewrite Hmark. by apply bool_decide_eq_true.
  - intros Hlate Hnot url Hurl Hne.
    rewrite (retrieveImage_issues s0 path suppress later url); try done.
    unfold isResourceAbsent. rewrite Hmark. apply bool_decide_eq_false. lia.
Qed.

(** C9: when the [k]-th outstanding fetch of a world reached from a new
    layer loads, with or without a texture from decoding, the [onload]
    handler throws before it takes the path out of [currentRetrievals]: the
    path stays in flight, the cache and the absent marks are as they were,
    and every later call of [retrieveImage] for the path changes nothing:
    no new fetch is issued. *)
Theorem load_leaves_path_in_flight es w0 w k r texture now later suppress :
  initial w0 → run es w0 = Some w → outstanding (layer w) !! k = Some r →
  clock w ≤ now →
  ∃ w', step (Loaded k texture now) w = Some w' ∧
        onload r texture (settle k (layer w)) = Throw ReferenceError ∧
        requestPath r ∈ currentRetrievals (layer w') ∧
        requestPath r ∉ (requestPath <$> outstanding (layer w')) ∧
        gpuResourceCache (layer w') = gpuResourceCache (layer w) ∧
        absentResourceList (layer w') = absentResourceList (layer w) ∧
        retrieveImage (requestPath r) suppress later (layer w') = layer w'.
Proof.
  intros Hinit Hrun Hk Hnow.
  destruct (invariant_run es w0 w (invariant_initial w0 Hinit) Hrun)
    as (Hcr & Hnd & _).
  assert (requestPath r ∈ currentRetrievals (layer w)) as Hin.
  { apply Hcr. by eapply list_elem_of_lookup_2. }
  eexists. split; [by apply (step_Loaded w k r)|].
  split; [apply onload_throws|]. cbn [layer settle currentRetrievals].
  split; [done|]. split.
  { cbn [outstanding]. intros (r' & Hpath & Hr')%list_elem_of_fmap.
    destruct (elem_of_delete_other _ _ _ _ Hnd Hk Hr') as [_ Hne].
    by apply Hne. }
  split; [done|]. split; [done|].
  by apply retrieveImage_in_flight.
Qed.

Lemma cache_run_quiet es path : ∀ w w',
  run es w = Some w' →
  quiet resourceUrlForTile coolDown path es w = true →
  gpuResourceCache (layer w') !! path = gpuResourceCache (layer w) !! path.
Proof.
  intros w w' Hrun _. by destruct (run_cache es w w' Hrun) as (-> & _).
Qed.

(** C10: the [onerror] handler leaves the cache, the outstanding fetches,
    the redraw count, [currentTilesInvalid] and the image path as they were
    (it changes only [currentRetrievals] and the absent marks); and when a
    fetch for [path] is issued, any events follow of which none completes a
    fetch of [path] by a successful load, and a fetch then fails, the cache
    is the same after the failure as before it, and [path] is in memory
    after the failure exactly if it was before the fetch was issued. *)
Theorem failure_leaves_cache_unchanged r now s w path suppress issuedAt w1
    es w2 k failedAt w3 :
  step (Retrieve path suppress issuedAt) w = Some w1 →
  run es w1 = Some w2 →
  quiet resourceUrlForTile coolDown path es w1 = true →
  step (Failed k failedAt) w2 = Some w3 →
  gpuResourceCache (onerror r now s) = gpuResourceCache s ∧
  outstanding (onerror r now s) = outstanding s ∧
  redraws (onerror r now s) = redraws s ∧
  currentTilesInvalid (onerror r now s) = currentTilesInvalid s ∧
  imagePath (onerror r now s) = imagePath s ∧
  gpuResourceCache (layer w3) = gpuResourceCache (layer w2) ∧
  isImageLayerInMemory path (layer w3) = isImageLayerInMemory path (layer w).
Proof.
  intros Hissue Hrun Hquiet Hfail.
  split; [done|]. split; [done|]. split; [done|]. split; [done|].
  split; [done|].
  destruct (step_cache _ _ _ Hfail) as (E32 & _).
  split; [done|].
  unfold isImageLayerInMemory, containsResource. rewrite E32.
  rewrite (cache_run_quiet es path w1 w2 Hrun Hquiet).
  by destruct (step_cache _ _ _ Hissue) as (-> & _).
Qed.

End Retrieval.

(** *** The claims at the sample layer *)

(** Two calls for the same path in a row: one fetch. *)
Lemma at_most_one_fetch_per_path_witness :
  BMNGOneImageLayer.outstanding
    (BMNGOneImageLayer.retrieveImage sampleUrl 60000 samplePath false 11
       (BMNGOneImageLayer.retrieveImage sampleUrl 60000 samplePath true 10
          sampleLayer))
  = [sampleRequest true].
Proof.
  pose proof (at_most_one_fetch_per_path sampleUrl 60000
                [BMNGOneImageLayer.Retrieve samplePath true 10]
                sampleWorld
                {| BMNGOneImageLayer.clock := 10;
                   BMNGOneImageLayer.layer :=
                     BMNGOneImageLayer.retrieveImage sampleUrl 60000
                       samplePath true 10 sampleLayer |}
                samplePath false 11 (conj eq_refl eq_refl) eq_refl)
    as (_ & _ & Hnoop).
  cbn [BMNGOneImageLayer.layer] in Hnoop. rewrite Hnoop; [reflexivity|].
  vm_compute. apply list_elem_of_here.
Defined.

(** The fetch of the sample path failed at time 100: a call at time 200
    changes nothing, a call at time 60100 issues a fetch. *)
Lemma onerror_marks_absent_and_suppresses_witness :
  BMNGOneImageLayer.retrieveImage sampleUrl 60000 samplePath false 200
    sampleFailed = sampleFailed ∧
  BMNGOneImageLayer.outstanding
    (BMNGOneImageLayer.retrieveImage sampleUrl 60000 samplePath false 60100
       sampleFailed)
  = [sampleRequest false].
Proof.
  pose proof (onerror_marks_absent_and_suppresses sampleUrl 60000
                (sampleRequest true) 100
                (BMNGOneImageLayer.settle 0 sampleInFlight)
                samplePath 100 sampleFailed) as H.
  split.
  - apply (H 200 false eq_refl). lia.
  - destruct (H 60100 false eq_refl) as (_ & _ & _ & _ & _ & Hlate).
    destruct (Hlate ltac:(lia) ltac:(vm_compute; apply not_elem_of_nil)
                ("http://localhost" +:+ samplePath) eq_refl ltac:(done))
      as [Hout _].
    rewrite Hout. reflexivity.
Defined.

(** The fetch of the sample path loads at time 20 without a texture: the
    path is still in flight, and the call at time 20 issues nothing. *)
Lemma load_leaves_path_in_flight_witness :
  ∃ w', BMNGOneImageLayer.step sampleUrl 60000
          (BMNGOneImageLayer.Loaded 0 None 20) sampleIssued = Some w' ∧
        BMNGOneImageLayer.currentRetrievals (BMNGOneImageLayer.layer w')
        = [samplePath] ∧
        BMNGOneImageLayer.outstanding
          (BMNGOneImageLayer.retrieveImage sampleUrl 60000 samplePath false
             20 (BMNGOneImageLayer.layer w'))
        = [].
Proof.
  destruct (load_leaves_path_in_flight sampleUrl 60000
              [BMNGOneImageLayer.Retrieve samplePath true 10]
              sampleWorld sampleIssued 0 (sampleRequest true) None 20 20
              false (conj eq_refl eq_refl) eq_refl eq_refl
              ltac:(simpl; lia))
    as (w' & Hstep & _ & _ & _ & _ & _ & Hretry).
  exists w'. split; [exact Hstep|].
  change (BMNGOneImageLayer.requestPath (sampleRequest true))
    with samplePath in Hretry.
  rewrite Hretry.
  vm_compute in Hstep. injection Hstep as <-. split; reflexivity.
Defined.

(** The sample run: a fetch of the image of slot "06" is issued and
    completes in between; the image of the sample path is in memory neither
    before nor after. *)
Lemma failure_leaves_cache_unchanged_witness :
  BMNGOneImageLayer.isImageLayerInMemory samplePath
    (BMNGOneImageLayer.layer sampleAfterFailure)
  = BMNGOneImageLayer.isImageLayerInMemory samplePath sampleLayer.
Proof.
  eapply (failure_leaves_cache_unchanged sampleUrl 60000
            (sampleRequest true) 40 sampleLayer
            sampleWorld samplePath true 10 sampleIssued sampleEvents
            sampleBeforeFailure 0 40 sampleAfterFailure).
  - reflexivity.
  - reflexivity.
  - reflexivity.
  - reflexivity.
Defined.

(** ** Rendering and the pre-population query of WeatherLayer *)

Section Weather.
Import JS WeatherLayer.

(** Entries without a [name], as the slot loop generates them, all resolve
    to [undefined]. *)
Lemma scanName_unnamed q (l : list LayerName.t) :
  Forall (λ e, LayerName.name e = None) l → scanName q l = None.
Proof.
  induction l as [|a l IH]; intros Hall; [done|].
  destruct l as [|b l]; [done|].
  rewrite scanName_step.
  apply Forall_cons in Hall as [Ha Hall].
  pose proof Hall as [Hb _]%Forall_cons.
  repeat case_decide; auto.
Qed.

Lemma nearestLayerName_unnamed q (l : list LayerName.t) :
  l ≠ [] → Forall (λ e, LayerName.name e = None) l →
  nearestLayerName l q = Normal None.
Proof.
  intros Hne Hall. unfold nearestLayerName.
  destruct l as [|a l]; [done|].
  destruct (last (a :: l)) as [b|] eqn:Hlast; [|by apply last_None in Hlast].
  assert (LayerName.name a = None) as ->
    by (by apply Forall_cons in Hall as [? _]).
  assert (LayerName.name b = None) as ->.
  { rewrite Forall_forall in Hall. apply Hall.
    apply last_Some in Hlast as [l' ->]. set_solver. }
  repeat case_decide; try done.
  by rewrite scanName_unnamed.
Qed.

(** X7: what [doRender] does with the entry that the resolver selects.
    When [layers] holds a sub-layer under the entry's [name], or the name is
    not one that a plain object inherits, the sub-layer under that name is
    created if [layers] has none, gets the layer's opacity and (if set)
    detail control, and is handed to the renderer. When the name is an
    inherited one and [layers] holds nothing under it, no sub-layer is
    created and the call throws. *)
Lemma doRender_selected (w : WeatherLayer.t) i e :
  nearestIndex (layerNames w) (WeatherLayer.time w) = Some i →
  layerNames w !! i = Some e →
  let key := ToString (LayerName.name e) in
  let sub :=
    SubLayer.configure (WeatherLayer.opacity w) (WeatherLayer.detailControl w)
      (default (SubLayer.create (Some (pathToData w +:+ key +:+ ".png")))
               (layers w !! key)) in
  (is_Some (layers w !! key) ∨ inherited key = false →
   ∃ w', doRender w = Normal w' ∧
         rendered w' = rendered w ++ [sub] ∧
         layers w' !! key = Some sub ∧
         layerNames w' = layerNames w) ∧
  (layers w !! key = None → inherited key = true →
   doRender w = Throw TypeError).
Proof.
  intros Hi He key sub.
  assert (layerNames w ≠ []) as Hne by (intros Hnil; by rewrite Hnil in He).
  unfold doRender, nearestLayer.
  rewrite nearestLayerName_nearestIndex by done.
  rewrite Hi. cbn [mbind option_bind].
  rewrite He. cbn [mbind option_bind].
  change (ToString (LayerName.name e)) with key.
  destruct (layers w !! key) as [l|] eqn:Hl.
  - split; [intros _|done].
    lazy beta iota. rewrite lookup_alter_eq, Hl.
    cbn [fmap option_fmap option_map].
    eexists. split; [reflexivity|]. cbn [rendered layers layerNames].
    subst sub. by rewrite lookup_alter_eq, Hl.
  - destruct (inherited key) eqn:Hkey.
    + split; [by intros [[? ?]|?]|intros _ _].
      lazy beta iota. by rewrite lookup_alter_eq, Hl.
    + split; [intros _|done].
      unfold createSubLayer. change (ToString (LayerName.name e)) with key.
      lazy beta iota.
      cbn [set_layers layers opacity detailControl].
      rewrite lookup_alter_eq, lookup_insert_eq.
      cbn [fmap option_fmap option_map].
      eexists. split; [reflexivity|].
      cbn [rendered layers layerNames pathToData].
      subst sub. by rewrite lookup_alter_eq, lookup_insert_eq.
Qed.

(** C3 at the layer as constructed, pre-populated and drawn at
    2016-07-12T00:00, the time of slot "00": the resolver selects slot 0,
    whose key is "00", but returns [undefined], the entry having no [name];
    the sub-layer handed to the renderer is the one created under the key
    "undefined", for the image "undefined.png"; no sub-layer exists for the
    key "00". *)
Theorem doRender_hands_over_undefined_layer :
  ∃ w1 w2,
    prePopulate (Some ()) newWeatherLayer = Some (Normal w1) ∧
    WeatherLayer.time w1 = 1468281600000 ∧
    nearestIndex (layerNames w1) (WeatherLayer.time w1) = Some 0%nat ∧
    LayerName.month <$> layerNames w1 !! 0%nat = Some (Some "00") ∧
    nearestLayerName (layerNames w1) (WeatherLayer.time w1) = Normal None ∧
    doRender w1 = Normal w2 ∧
    SubLayer.imagePath <$> rendered w2
      = ["/standalonedata/WORLD-CED/test/undefined.png"] ∧
    layers w2 !! "00" = None.
Proof.
  eexists _, _.
  split; [vm_compute; reflexivity|].
  split; [reflexivity|]. split; [reflexivity|]. split; [reflexivity|].
  split; [reflexivity|]. split; [vm_compute; reflexivity|].
  split; reflexivity.
Qed.

(** C8 at the layer as constructed and pre-populated, with a world window
    whose cache is empty: the layer has 49 slots, no image is in the cache,
    and [isPrePopulated] returns [true]. *)
Theorem weatherLayer_isPrePopulated_without_images :
  ∃ w1,
    prePopulate (Some emptyWindow) newWeatherLayer = Some (Normal w1) ∧
    length (layerNames w1) = 49%nat ∧
    (∀ path, GpuResourceCache.containsResource path
               (OneImageLayer.gpuResourceCache emptyWindow) = false) ∧
    isPrePopulated (Some emptyWindow) w1 = Normal true.
Proof.
  eexists. split; [vm_compute; reflexivity|].
  split; [reflexivity|]. split; [|reflexivity].
  intros path. unfold GpuResourceCache.containsResource. cbn.
  apply bool_decide_eq_false. rewrite lookup_empty. by intros [? ?].
Qed.

End Weather.

(** The layer with named slots, drawn at 03:00: the sub-layer of slot "01"
    is created and handed over. The layer whose slot is named
    "constructor": the call throws. *)
Lemma doRender_selected_witness :
  (∃ w', WeatherLayer.doRender namedWeatherLayer = JS.Normal w' ∧
         WeatherLayer.rendered w'
         = [SubLayer.configure 1 None
              (SubLayer.create (Some "/data/01.png"))]) ∧
  WeatherLayer.doRender inheritedNameLayer = JS.Throw JS.TypeError.
Proof.
  split.
  - destruct (doRender_selected namedWeatherLayer 1
                (sampleSlot "01" 10800000)
                ltac:(vm_compute; reflexivity) eq_refl)
      as [Hdrawn _].
    destruct (Hdrawn ltac:(right; vm_compute; reflexivity))
      as (w' & Hrender & Hrendered & _).
    exists w'. split; [exact Hrender|]. rewrite Hrendered. reflexivity.
  - destruct (doRender_selected inheritedNameLayer 0
                (sampleSlot "constructor" 0)
                ltac:(vm_compute; reflexivity) eq_refl)
      as [_ Hthrown].
    apply Hthrown; vm_compute; reflexivity.
Defined.

(** ** The TimeSeriesLayer variant *)

Section TimeSeries.
Import JS TimeSeriesLayer.

Variable dateKey : Z → string.
Variable baseUrl : string.

Local Abbreviation prePopulate := (TimeSeriesLayer.prePopulate dateKey baseUrl).






End TimeSeries.


(** * Further properties *)

(** ** The resolver: closest slot, exact hits, monotonicity *)

Section NearestMore.
Import JS WeatherLayer.
Implicit Types (l : list LayerName.t) (q : Z) (a b e : LayerName.t).

(** When the loop returns, it returns from a pair of adjacent entries that
    hold the query between their timestamps. *)
Lemma scanIndex_inv q l : ∀ k i,
  scanIndex q k l = Some i →
  ∃ j a b, l !! j = Some a ∧ l !! S j = Some b ∧
           LayerName.time a ≤ q ∧ q ≤ LayerName.time b ∧
           i = if decide (q - LayerName.time a < LayerName.time b - q)
               then (k + j)%nat else S (k + j).
Proof.
  induction l as [|a l IH]; intros k i Hi; [done|].
  destruct l as [|b l]; [done|].
  rewrite scanIndex_step in Hi. case_decide as Hin.
  - exists 0%nat, a, b. rewrite Nat.add_0_r.
    split_and!; try done; try lia. by case_decide; simplify_eq.
  - destruct (IH (S k) i Hi) as (j & a' & b' & Ha & Hb & Hle & Hge & ->).
    exists (S j), a', b'. split_and!; try done.
    by replace (k + S j)%nat with (S k + j)%nat by lia.
Qed.

Lemma nearestIndex_lt_length l q i :
  nearestIndex l q = Some i → (i < length l)%nat.
Proof.
  unfold nearestIndex. destruct l as [|a l]; [done|].
  destruct (last (a :: l)); [|done].
  repeat case_decide; intros Hi; simplify_eq; cbn; try lia.
  apply scanIndex_bounds in Hi. cbn in Hi. lia.
Qed.

(** The three ways in which the resolver selects an entry. *)
Lemma nearestIndex_cases l q i :
  nearestIndex l q = Some i →
  (∃ first, l !! 0%nat = Some first ∧ q ≤ LayerName.time first ∧ i = 0%nat) ∨
  (∃ final, l !! (length l - 1)%nat = Some final ∧
            LayerName.time final ≤ q ∧ i = (length l - 1)%nat) ∨
  (∃ j a b, l !! j = Some a ∧ l !! S j = Some b ∧
            LayerName.time a ≤ q ∧ q ≤ LayerName.time b ∧
            i = if decide (q - LayerName.time a < LayerName.time b - q)
                then j else S j).
Proof.
  unfold nearestIndex. destruct l as [|a l'] eqn:El; [done|].
  rewrite <- El.
  destruct (last l) as [final|] eqn:Hlast; [|by subst].
  assert (l !! (length l - 1)%nat = Some final) as Hfinal.
  { rewrite last_lookup in Hlast.
    by replace (length l - 1)%nat with (pred (length l)) by lia. }
  repeat case_decide; intros Hi.
  - left. exists a. simplify_eq. by split_and!.
  - right; left. exists final. simplify_eq. by split_and!.
  - right; right. destruct (scanIndex_inv _ _ _ _ Hi)
      as (j & a' & b' & Ha & Hb & Hle & Hge & ->).
    exists j, a', b'. by split_and!.
Qed.

(** On a non-empty list with ascending timestamps every query selects an
    entry, and the call returns the [name] of that entry. *)
Lemma nearestLayerName_selects l q :
  ascending l = true → l ≠ [] →
  ∃ i e, nearestIndex l q = Some i ∧ l !! i = Some e ∧
         nearestLayerName l q = Normal (LayerName.name e).
Proof.
  intros Hasc Hne.
  destruct (lookup_lt_is_Some_2 l 0) as [first H0].
  { destruct l; [done|cbn; lia]. }
  destruct (last l) as [final|] eqn:Hlast; [|by apply last_None in Hlast].
  assert (∃ i, nearestIndex l q = Some i) as [i Hi].
  { assert (head l = Some first) as Hhd by (by rewrite head_lookup).
    unfold nearestIndex. destruct l as [|a l']; [done|].
    rewrite Hlast. cbn in Hhd. simplify_eq.
    repeat case_decide; eauto.
    apply (scanIndex_found q (first :: l') 0 first final);
      [done|done|lia|lia]. }
  pose proof (nearestIndex_lt_length _ _ _ Hi) as Hlt.
  destruct (lookup_lt_is_Some_2 l i Hlt) as [e He].
  exists i, e. split; [done|]. split; [done|].
  rewrite nearestLayerName_nearestIndex by done.
  rewrite Hi. cbn. by rewrite He.
Qed.

(** No entry is closer in time to the query than the one at the selected
    position. *)
Lemma nearestIndex_closest l q i e e' :
  ascending l = true → nearestIndex l q = Some i → l !! i = Some e →
  e' ∈ l →
  Z.abs (LayerName.time e - q) ≤ Z.abs (LayerName.time e' - q).
Proof.
  intros Hasc Hi He [m Hm]%list_elem_of_lookup_1.
  destruct (nearestIndex_cases l q i Hi)
    as [(first & H0 & Hq & ->)|[(final & Hn & Hq & ->)|
        (j & a & b & Ha & Hb & Hle & Hge & ->)]].
  - simplify_eq.
    pose proof (ascending_lookup_le l 0 m e e' Hasc He Hm ltac:(lia)). lia.
  - simplify_eq.
    pose proof (lookup_lt_Some _ _ _ Hm).
    pose proof (ascending_lookup_le l m _ e' e Hasc Hm He ltac:(lia)). lia.
  - assert (m ≤ j ∨ S j ≤ m)%nat as [Hlow|Hhigh] by lia.
    + pose proof (ascending_lookup_le l m j e' a Hasc Hm Ha Hlow).
      case_decide; simplify_eq; lia.
    + pose proof (ascending_lookup_le l (S j) m b e' Hasc Hb Hm Hhigh).
      case_decide; simplify_eq; lia.
Qed.

(** X1: on a non-empty list of entries with ascending timestamps,
    [nearestLayerName] returns the [name] of an entry of the list, and no
    entry is closer in time to the query than that one. *)
Theorem nearest_is_closest l q :
  ascending l = true → l ≠ [] →
  ∃ i e, nearestIndex l q = Some i ∧ l !! i = Some e ∧
         nearestLayerName l q = Normal (LayerName.name e) ∧
         ∀ e', e' ∈ l →
               Z.abs (LayerName.time e - q) ≤ Z.abs (LayerName.time e' - q).
Proof.
  intros Hasc Hne.
  destruct (nearestLayerName_selects l q Hasc Hne) as (i & e & Hi & He & Hn).
  exists i, e. split_and!; try done.
  intros e' He'. by eapply nearestIndex_closest.
Qed.

(** Among the three sample slots, queried at 02:00: slot "01" is returned,
    one hour away, and slot "00" is two hours away. *)
Lemma nearest_is_closest_witness :
  nearestLayerName threeSlots 7200000 = Normal (Some "01") ∧
  Z.abs (10800000 - 7200000) ≤ Z.abs (0 - 7200000).
Proof.
  destruct (nearest_is_closest threeSlots 7200000 eq_refl ltac:(done))
    as (i & e & Hi & He & Hname & Hclose).
  vm_compute in Hi. injection Hi as <-.
  vm_compute in He. injection He as <-.
  split; [exact Hname|].
  apply (Hclose (sampleSlot "00" 0)). apply list_elem_of_here.
Defined.

(** X2: on entries with ascending timestamps, a query at the timestamp of
    an entry selects that entry, and the call returns its [name]. *)
Theorem nearest_exact_hit l i e :
  ascending l = true → l !! i = Some e →
  nearestIndex l (LayerName.time e) = Some i ∧
  nearestLayerName l (LayerName.time e) = Normal (LayerName.name e).
Proof.
  intros Hasc He.
  assert (l ≠ []) as Hne by (intros ->; done).
  assert (nearestIndex l (LayerName.time e) = Some i) as Hidx.
  { unfold nearestIndex. destruct l as [|a l'] eqn:El; [done|].
    rewrite <- El in *.
    destruct (last l) as [b|] eqn:Hlast; [|by apply last_None in Hlast].
    assert (l !! 0%nat = Some a) as H0 by (by rewrite El).
    assert (l !! pred (length l) = Some b) as Hn
      by (by rewrite <- last_lookup).
    pose proof (lookup_lt_Some _ _ _ He) as Hlt.
    destruct (decide (i = 0%nat)) as [->|Hi0].
    { simplify_eq. by rewrite decide_True by lia. }
    assert (LayerName.time a < LayerName.time e)
      by (eapply (ascending_lookup_lt l 0 i); eauto; lia).
    rewrite decide_False by lia.
    destruct (decide (i = pred (length l))) as [->|Hin].
    { simplify_eq. rewrite decide_True by lia. f_equal. lia. }
    assert (LayerName.time e < LayerName.time b)
      by (eapply (ascending_lookup_lt l i (pred (length l))); eauto; lia).
    rewrite decide_False by lia.
    destruct (lookup_lt_is_Some_2 l (i - 1)) as [p Hp]; [lia|].
    assert (LayerName.time p < LayerName.time e)
      by (eapply (ascending_lookup_lt l (i - 1) i); eauto; lia).
    rewrite (scanIndex_bracket (LayerName.time e) l 0 (i - 1) p e);
      [|done|done|by replace (S (i - 1)) with i by lia|done|lia].
    rewrite decide_False by lia. f_equal. lia. }
  split; [done|].
  rewrite nearestLayerName_nearestIndex by done.
  rewrite Hidx. cbn. by rewrite He.
Qed.

(** The middle one of the three sample slots. *)
Lemma nearest_exact_hit_witness :
  nearestIndex threeSlots 10800000 = Some 1%nat ∧
  nearestLayerName threeSlots 10800000 = Normal (Some "01").
Proof.
  apply (nearest_exact_hit threeSlots 1 (sampleSlot "01" 10800000));
    reflexivity.
Defined.

(** A later query never selects an earlier position. *)
Lemma nearestIndex_monotone l q q' i i' :
  ascending l = true → q ≤ q' →
  nearestIndex l q = Some i → nearestIndex l q' = Some i' →
  (i ≤ i')%nat.
Proof.
  intros Hasc Hqq Hi Hi'.
  pose proof (nearestIndex_lt_length _ _ _ Hi) as Hlen.
  pose proof (nearestIndex_lt_length _ _ _ Hi') as Hlen'.
  destruct (lookup_lt_is_Some_2 l 0) as [first H0]; [lia|].
  destruct (lookup_lt_is_Some_2 l (length l - 1)) as [final Hn]; [lia|].
  assert (∀ m x, l !! m = Some x →
                 LayerName.time first ≤ LayerName.time x ∧
                 LayerName.time x ≤ LayerName.time final) as Hrange.
  { intros m x Hm. pose proof (lookup_lt_Some _ _ _ Hm). split.
    - eapply (ascending_lookup_le l 0 m); eauto. lia.
    - eapply (ascending_lookup_le l m (length l - 1)); eauto. lia. }
  destruct (nearestIndex_cases l q i Hi)
    as [(f1 & F1 & Hq & ->)|[(f2 & F2 & Hq & ->)|
        (j & a & b & Ha & Hb & Hle & Hge & ->)]]; [lia| |].
  - rewrite Hn in F2. injection F2 as <-.
    destruct (nearestIndex_cases l q' i' Hi')
      as [(f1 & F1 & Hq' & ->)|[(f3 & F3 & Hq' & ->)|
          (j' & a' & b' & Ha' & Hb' & Hle' & Hge' & ->)]]; [|lia|].
    + rewrite H0 in F1. injection F1 as <-.
      destruct (decide (length l - 1 = 0)%nat) as [->|Hpos]; [lia|].
      assert (LayerName.time first < LayerName.time final); [|lia].
      eapply (ascending_lookup_lt l 0 (length l - 1)); eauto. lia.
    + destruct (Hrange _ _ Hb') as [_ Hbf].
      assert (S j' = length l - 1)%nat as Hj'.
      { destruct (decide (S j' = length l - 1)%nat) as [|Hne]; [done|].
        pose proof (lookup_lt_Some _ _ _ Hb').
        assert (LayerName.time b' < LayerName.time final); [|lia].
        eapply (ascending_lookup_lt l (S j') (length l - 1)); eauto. lia. }
      rewrite Hj' in Hb'. rewrite Hn in Hb'. injection Hb' as <-.
      rewrite decide_False by lia. lia.
  - destruct (nearestIndex_cases l q' i' Hi')
      as [(f1 & F1 & Hq' & ->)|[(f3 & F3 & Hq' & ->)|
          (j' & a' & b' & Ha' & Hb' & Hle' & Hge' & ->)]].
    + rewrite H0 in F1. injection F1 as <-.
      destruct (Hrange _ _ Ha) as [Haf _].
      assert (j = 0)%nat as ->.
      { destruct (decide (j = 0)%nat) as [|Hne]; [done|].
        assert (LayerName.time first < LayerName.time a); [|lia].
        eapply (ascending_lookup_lt l 0 j); eauto. lia. }
      assert (LayerName.time a < LayerName.time b)
        by (eapply (ascending_lookup_lt l 0 1); eauto).
      rewrite decide_True by lia. lia.
    + pose proof (lookup_lt_Some _ _ _ Hb). case_decide; lia.
    + assert (LayerName.time a < LayerName.time b)
        by (eapply (ascending_lookup_lt l j (S j)); eauto).
      assert (LayerName.time a' < LayerName.time b')
        by (eapply (ascending_lookup_lt l j' (S j')); eauto).
      destruct (lt_eq_lt_dec j' j) as [[Hlt|Heq]|Hgt].
      * pose proof (ascending_lookup_le l (S j') j b' a Hasc Hb' Ha
                      ltac:(lia)).
        destruct (decide (S j' = j)) as [Hadj|Hfar].
        -- repeat case_decide; lia.
        -- assert (LayerName.time b' < LayerName.time a)
             by (eapply (ascending_lookup_lt l (S j') j); eauto; lia).
           lia.
      * subst j'. rewrite Ha in Ha'. injection Ha' as <-.
        rewrite Hb in Hb'. injection Hb' as <-.
        repeat case_decide; lia.
      * repeat case_decide; lia.
Qed.

(** X3: on a non-empty list of entries with ascending timestamps,
    [nearestLayerName] is monotone: for two queries, the later one returns
    the [name] of an entry that is not earlier in the list, nor in time,
    than the entry returned for the earlier one. *)
Theorem nearest_monotone l q q' :
  ascending l = true → l ≠ [] → q ≤ q' →
  ∃ i i' e e',
    nearestIndex l q = Some i ∧ nearestIndex l q' = Some i' ∧
    l !! i = Some e ∧ l !! i' = Some e' ∧
    nearestLayerName l q = Normal (LayerName.name e) ∧
    nearestLayerName l q' = Normal (LayerName.name e') ∧
    (i ≤ i')%nat ∧ LayerName.time e ≤ LayerName.time e'.
Proof.
  intros Hasc Hne Hqq.
  destruct (nearestLayerName_selects l q Hasc Hne) as (i & e & Hi & He & Hn).
  destruct (nearestLayerName_selects l q' Hasc Hne)
    as (i' & e' & Hi' & He' & Hn').
  pose proof (nearestIndex_monotone l q q' i i' Hasc Hqq Hi Hi') as Hle.
  exists i, i', e, e'. split_and!; try done.
  by eapply (ascending_lookup_le l i i').
Qed.

(** The three sample slots queried at 01:00 and at 04:00: slot "00", then
    slot "01". *)
Lemma nearest_monotone_witness :
  nearestLayerName threeSlots 3600000 = Normal (Some "00") ∧
  nearestLayerName threeSlots 14400000 = Normal (Some "01").
Proof.
  destruct (nearest_monotone threeSlots 3600000 14400000
              eq_refl ltac:(done) ltac:(lia))
    as (i & i' & e & e' & Hi & Hi' & He & He' & Hn & Hn' & _).
  vm_compute in Hi. injection Hi as <-.
  vm_compute in Hi'. injection Hi' as <-.
  vm_compute in He. injection He as <-.
  vm_compute in He'. injection He' as <-.
  split; [exact Hn|exact Hn'].
Defined.

End NearestMore.

(** ** WeatherLayer: the rebuild guard, inexact intervals, sub-layers *)

Section BuildMore.
Import JS WeatherLayer.

Lemma buildLoop_frame m : ∀ i (w : WeatherLayer.t),
  layers (buildLoop m i w) = layers w ∧
  pathToData (buildLoop m i w) = pathToData w ∧
  WeatherLayer.time (buildLoop m i w) = WeatherLayer.time w ∧
  rendered (buildLoop m i w) = rendered w ∧
  PeriodicTimeSequence.startTime (timeSequence (buildLoop m i w))
    = PeriodicTimeSequence.startTime (timeSequence w) ∧
  PeriodicTimeSequence.endTime (timeSequence (buildLoop m i w))
    = PeriodicTimeSequence.endTime (timeSequence w) ∧
  PeriodicTimeSequence.period (timeSequence (buildLoop m i w))
    = PeriodicTimeSequence.period (timeSequence w).
Proof.
  induction m as [|m IH]; intros i w; [done|].
  cbn [buildLoop].
  destruct (IH (S i) (buildStep i w)) as (-> & -> & -> & -> & -> & -> & ->).
  done.
Qed.


Lemma array_set_Forall {A} (P : A → Prop) (i : nat) (v : A) (a : list A) :
  P v → Forall P a → Forall P (array_set i v a).
Proof.
  intros Hv Ha. unfold array_set. case_decide.
  - by apply Forall_insert.
  - apply Forall_app. split; [done|]. by constructor.
Qed.

Lemma buildLoop_unnamed m : ∀ i (w : WeatherLayer.t),
  Forall (λ e, LayerName.name e = None) (layerNames w) →
  Forall (λ e, LayerName.name e = None) (layerNames (buildLoop m i w)).
Proof.
  induction m as [|m IH]; intros i w Hall; [done|].
  cbn [buildLoop]. apply IH. unfold buildStep. cbn [layerNames].
  by apply array_set_Forall.
Qed.



Lemma ensureSubLayer_fold_id (l : list LayerName.t) (w : WeatherLayer.t) :
  (∀ e, e ∈ l →
        is_Some (layers w !! ToString (LayerName.name e))
        ∨ inherited (ToString (LayerName.name e)) = true) →
  foldl ensureSubLayer w l = w.
Proof.
  induction l as [|x l IH]; intros Hall; [done|].
  assert (ensureSubLayer w x = w) as Hx.
  { unfold ensureSubLayer.
    destruct (Hall x) as [[sub Hsub]|Hkey]; [apply list_elem_of_here|..].
    - by rewrite Hsub.
    - rewrite Hkey. by destruct (layers w !! _). }
  simpl. rewrite Hx.
  apply IH. intros e He. apply Hall. by apply list_elem_of_further.
Qed.







(** With entries that have no [name], the second loop creates the
    sub-layer of "undefined" and no other. *)
Lemma ensureSubLayer_fold_unnamed (l : list LayerName.t) (w : WeatherLayer.t) :
  l ≠ [] → Forall (λ e, LayerName.name e = None) l →
  layers w !! "undefined" = None →
  foldl ensureSubLayer w l = createSubLayer None w.
Proof.
  intros Hne Hall Hnone. destruct l as [|x l]; [done|].
  apply Forall_cons in Hall as [Hx Hall]. simpl.
  unfold ensureSubLayer at 2. rewrite Hx. cbn [ToString default].
  rewrite Hnone.
  change (inherited "undefined") with false. lazy beta iota.
  apply ensureSubLayer_fold_id.
  intros e He. rewrite Forall_forall in Hall. rewrite (Hall e He).
  left. unfold createSubLayer. cbn [ToString default set_layers layers].
  by rewrite lookup_insert_eq.
Qed.

(** X8: whatever the sequence, the slots that [prePopulate] generates carry
    no [name]; so on a layer without sub-layers it creates exactly one
    sub-layer, under "undefined" and for the image "undefined.png", the
    resolver returns [undefined] for every time, and [doRender] hands that
    one sub-layer to the renderer. *)
Theorem prePopulate_creates_only_undefined {W} (wwd : W)
    (w w' : WeatherLayer.t) q :
  prePopulate (Some wwd) w = Some (Normal w') →
  Forall (λ e, LayerName.name e = None) (layerNames w) →
  layers w = ∅ → layerNames w' ≠ [] →
  layers w' =
    {["undefined" :=
        SubLayer.create (Some (pathToData w +:+ "undefined" +:+ ".png"))]} ∧
  nearestLayerName (layerNames w') q = Normal None ∧
  ∃ w2, doRender w' = Normal w2 ∧
        rendered w2 =
          rendered w
            ++ [SubLayer.configure (WeatherLayer.opacity w')
                  (WeatherLayer.detailControl w')
                  (SubLayer.create
                     (Some (pathToData w +:+ "undefined" +:+ ".png")))] ∧
        dom (layers w2) = {["undefined"]}.
Proof.
  intros Hpre Hunnamed Hempty Hslots.
  unfold prePopulate in Hpre.
  set (len := add_one _) in Hpre.
  assert (∃ w1, w' = foldl ensureSubLayer w1 (layerNames w1) ∧
                Forall (λ e, LayerName.name e = None) (layerNames w1) ∧
                layers w1 = ∅ ∧ pathToData w1 = pathToData w ∧
                rendered w1 = rendered w)
    as (w1 & -> & Hun1 & Hl1 & Hp1 & Hr1).
  { destruct (differs _ len).
    - destruct (rounds len) as [n|]; [|done]. cbn in Hpre.
      exists (buildLoop n 0 w). split; [congruence|].
      destruct (buildLoop_frame n 0 w) as (-> & -> & _ & -> & _).
      split_and!; try done. by apply buildLoop_unnamed.
    - cbn in Hpre. exists w. split; [congruence|done]. }
  rewrite ensureSubLayer_layerNames in Hslots |- *.
  rewrite (ensureSubLayer_fold_unnamed (layerNames w1) w1) by
    (done || by rewrite Hl1).
  unfold createSubLayer. cbn [ToString default set_layers layers].
  rewrite Hl1, Hp1. split; [done|].
  split; [by apply nearestLayerName_unnamed|].
  unfold doRender, nearestLayer, set_layers. cbn [layerNames].
  rewrite nearestLayerName_unnamed by done.
  cbn [ToString default layers]. rewrite lookup_insert_eq.
  lazy beta iota. cbn [layers opacity detailControl].
  rewrite lookup_alter_eq, lookup_insert_eq.
  cbn [fmap option_fmap option_map].
  eexists. split; [reflexivity|]. cbn [rendered layers].
  rewrite Hr1. split; [done|].
  rewrite dom_alter_L, dom_insert_L, dom_empty_L. set_solver.
Qed.

(** The layer as constructed, asked for the slot of 2016-07-14. *)
Lemma prePopulate_creates_only_undefined_witness :
  ∃ w', prePopulate (Some ()) newWeatherLayer = Some (Normal w') ∧
        nearestLayerName (layerNames w') 1468454400000 = Normal None.
Proof.
  eexists. split; [vm_compute; reflexivity|].
  eapply (prePopulate_creates_only_undefined () newWeatherLayer);
    [vm_compute; reflexivity|constructor|reflexivity|done].
Defined.

End BuildMore.

(** ** WeatherLayer: what drawing changes *)

Section RenderMore.
Import JS WeatherLayer.

Lemma configure_again op dc (l : SubLayer.t) :
  SubLayer.configure op dc (SubLayer.configure op dc l)
  = SubLayer.configure op dc l.
Proof.
  unfold SubLayer.configure. cbn. by destruct (SubLayer.truthy dc).
Qed.

(** [doRender] by its parts: the name resolved, the sub-layer created when
    missing, then configured and handed over. *)
Lemma doRender_inv (w w' : WeatherLayer.t) :
  doRender w = Normal w' →
  ∃ nearestName sub,
    nearestLayerName (layerNames w) (WeatherLayer.time w)
      = Normal nearestName ∧
    sub = SubLayer.configure (WeatherLayer.opacity w)
            (WeatherLayer.detailControl w)
            (default (SubLayer.create
                        (Some (pathToData w +:+ ToString nearestName
                                 +:+ ".png")))
                     (layers w !! ToString nearestName)) ∧
    w' = {| availableTimes := availableTimes w;
            WeatherLayer.time := WeatherLayer.time w;
            timeSequence := timeSequence w;
            pathToData := pathToData w;
            layers := <[ToString nearestName := sub]> (layers w);
            layerNames := layerNames w;
            WeatherLayer.opacity := WeatherLayer.opacity w;
            WeatherLayer.detailControl := WeatherLayer.detailControl w;
            WeatherLayer.inCurrentFrame := SubLayer.inCurrentFrame sub;
            rendered := rendered w ++ [sub] |}.
Proof.
  unfold doRender, nearestLayer. intros Hrender.
  destruct (nearestLayerName _ _) as [nearestName|]; [|done].
  exists nearestName. eexists. split; [done|]. split; [reflexivity|].
  destruct (layers w !! ToString nearestName) as [l|] eqn:Hl.
  - lazy beta iota in Hrender.
    rewrite lookup_alter_eq, Hl in Hrender.
    cbn [fmap option_fmap option_map] in Hrender.
    injection Hrender as <-. f_equal.
    apply map_eq. intros k. destruct (decide (ToString nearestName = k)) as [<-|].
    + by rewrite lookup_alter_eq, lookup_insert_eq, Hl.
    + by rewrite lookup_alter_ne, lookup_insert_ne.
  - destruct (inherited (ToString nearestName)).
    { lazy beta iota in Hrender.
      by rewrite lookup_alter_eq, Hl in Hrender. }
    unfold createSubLayer, set_layers in Hrender.
    lazy beta iota in Hrender.
    cbn [layers opacity detailControl] in Hrender.
    rewrite lookup_alter_eq, lookup_insert_eq in Hrender.
    cbn [fmap option_fmap option_map] in Hrender.
    injection Hrender as <-.
    cbn [availableTimes time timeSequence pathToData layerNames rendered
         default]. f_equal.
    apply map_eq. intros k. destruct (decide (ToString nearestName = k)) as [<-|].
    + by rewrite lookup_alter_eq, !lookup_insert_eq.
    + by rewrite lookup_alter_ne, !lookup_insert_ne.
Qed.

(** X9: [doRender] leaves the slots, the times and every other sub-layer as
    they were, keeps the image path of each sub-layer, adds at most one
    sub-layer, and hands exactly one sub-layer to the renderer. *)
Theorem doRender_frame (w w' : WeatherLayer.t) :
  doRender w = Normal w' →
  layerNames w' = layerNames w ∧
  availableTimes w' = availableTimes w ∧
  WeatherLayer.time w' = WeatherLayer.time w ∧
  timeSequence w' = timeSequence w ∧
  (∀ k sub, layers w !! k = Some sub →
            ∃ sub', layers w' !! k = Some sub' ∧
                    SubLayer.imagePath sub' = SubLayer.imagePath sub) ∧
  (size (layers w') ≤ S (size (layers w)))%nat ∧
  length (rendered w') = S (length (rendered w)).
Proof.
  intros (nearestName & sub & _ & Hsub & ->)%doRender_inv.
  cbn [layerNames availableTimes time timeSequence layers rendered].
  split_and!; try done.
  - intros k l Hk. destruct (decide (ToString nearestName = k)) as [<-|Hne].
    + rewrite lookup_insert_eq. eexists. split; [done|].
      rewrite Hsub, Hk. done.
    + rewrite lookup_insert_ne by done. eauto.
  - destruct (layers w !! ToString nearestName) eqn:Hl.
    + rewrite map_size_insert_Some by eauto. lia.
    + by rewrite map_size_insert_None.
  - rewrite length_app. cbn. lia.
Qed.

(** The sample layer after [prePopulate], drawn once. *)
Lemma doRender_frame_witness :
  ∃ w1 w2, prePopulate (Some ()) newWeatherLayer = Some (Normal w1) ∧
           doRender w1 = Normal w2 ∧
           layerNames w2 = layerNames w1 ∧
           length (rendered w2) = 1%nat.
Proof.
  eexists _, _. split; [vm_compute; reflexivity|].
  split; [vm_compute; reflexivity|].
  match goal with
  | |- layerNames ?b = layerNames ?a ∧ _ =>
      pose proof (doRender_frame a b ltac:(vm_compute; reflexivity))
        as (Hn & _ & _ & _ & _ & _ & Hr)
  end.
  split; [exact Hn|exact Hr].
Defined.

(** X10: drawing again, with nothing changed in between, hands the same
    sub-layer over and changes no sub-layer: a sub-layer is created at most
    once. *)
Theorem doRender_again (w w1 : WeatherLayer.t) :
  doRender w = Normal w1 →
  ∃ w2 sub, doRender w1 = Normal w2 ∧
            layers w2 = layers w1 ∧
            rendered w1 = rendered w ++ [sub] ∧
            rendered w2 = rendered w1 ++ [sub].
Proof.
  intros (nearestName & sub & Hname & Hsub & ->)%doRender_inv.
  unfold doRender, nearestLayer.
  cbn [layerNames time]. rewrite Hname.
  cbn [layers]. rewrite lookup_insert_eq. lazy beta iota.
  cbn [layers opacity detailControl].
  rewrite lookup_alter_eq, lookup_insert_eq.
  cbn [fmap option_fmap option_map].
  assert (SubLayer.configure (WeatherLayer.opacity w)
            (WeatherLayer.detailControl w) sub = sub) as Hfix
    by (rewrite Hsub; apply configure_again).
  cbn [availableTimes time timeSequence pathToData layers layerNames
       opacity detailControl inCurrentFrame rendered].
  eexists _, sub. rewrite !Hfix.
  split; [reflexivity|]. cbn [layers rendered].
  split; [|done].
  apply map_eq. intros k.
  destruct (decide (ToString nearestName = k)) as [<-|Hne].
  - rewrite lookup_alter_eq, lookup_insert_eq.
    cbn [fmap option_fmap option_map]. by rewrite Hfix.
  - by rewrite lookup_alter_ne.
Qed.

(** The three sample slots under their names, drawn twice at 03:00. *)
Lemma doRender_again_witness :
  ∃ w1 w2 sub,
    doRender namedWeatherLayer = Normal w1 ∧
    doRender w1 = Normal w2 ∧ layers w2 = layers w1 ∧
    rendered w2 = [sub; sub].
Proof.
  eexists. 
  assert (∀ w1, doRender namedWeatherLayer = Normal w1 →
                ∃ w2 sub, doRender namedWeatherLayer = Normal w1 ∧
                          doRender w1 = Normal w2 ∧ layers w2 = layers w1 ∧
                          rendered w2 = [sub; sub]) as Hall.
  { intros w1 H1.
    destruct (doRender_again namedWeatherLayer w1 H1)
      as (w2 & sub & Hr2 & Hl & Hr1 & Hr).
    exists w2, sub. split_and!; try done.
    rewrite Hr, Hr1. reflexivity. }
  apply Hall. vm_compute. reflexivity.
Defined.

End RenderMore.

(** ** Retrieval: the cache, the notifications, whole fetches *)

Section RetrievalMore.
Import JS GpuResourceCache AbsentResourceList BMNGOneImageLayer.

Variable resourceUrlForTile : string → option string.
Variable coolDown : Z.

Local Abbreviation retrieveImage :=
  (retrieveImage resourceUrlForTile coolDown).
Local Abbreviation prePopulate := (prePopulate resourceUrlForTile coolDown).
Local Abbreviation step := (step resourceUrlForTile coolDown).
Local Abbreviation run := (run resourceUrlForTile coolDown).

Implicit Types (s : BMNGOneImageLayer.t) (w : World) (r : Request)
  (path : string).

(** X11: [retrieveImage] does not look into the cache. For a layer whose
    image is in the cache (and not in flight nor marked absent, its URL
    being available), a call of [retrieveImage] for the image issues a
    fetch all the same, whereas [prePopulate] does nothing. *)
Theorem retrieveImage_ignores_cache s suppress now url :
  isImageLayerInMemory (imagePath s) s = true →
  imagePath s ∉ currentRetrievals s →
  isResourceAbsent coolDown now (absentResourceList s) (imagePath s)
    = false →
  resourceUrlForTile (imagePath s) = Some url → url ≠ "" →
  outstanding (retrieveImage (imagePath s) suppress now s)
    = outstanding s ++ [{| requestPath := imagePath s; requestUrl := url;
                           suppressRedraw := suppress |}] ∧
  currentRetrievals (retrieveImage (imagePath s) suppress now s)
    = currentRetrievals s ++ [imagePath s] ∧
  prePopulate (Some ()) now s = Normal s.
Proof.
  intros Hmem Hfree Habs Hurl Hne.
  rewrite (retrieveImage_issues _ _ _ (imagePath s) suppress now url)
    by done.
  split; [done|]. split; [done|].
  unfold BMNGOneImageLayer.prePopulate. by rewrite Hmem.
Qed.

(** X12: in every world reached from a new layer, each outstanding fetch
    goes to the URL that [resourceUrlForTile] gives for its path, which is
    not empty, and its path is not marked absent at the current time: no
    fetch is ever in flight for a path without a URL or inside its
    cool-down. *)
Theorem outstanding_fetches_are_legitimate es w0 w r :
  initial w0 → run es w0 = Some w → r ∈ outstanding (layer w) →
  resourceUrlForTile (requestPath r) = Some (requestUrl r) ∧
  requestUrl r ≠ "" ∧
  isResourceAbsent coolDown (clock w) (absentResourceList (layer w))
    (requestPath r) = false.
Proof.
  intros Hinit Hrun Hr.
  destruct (invariant_run resourceUrlForTile coolDown es w0 w
              (invariant_initial resourceUrlForTile coolDown w0 Hinit) Hrun)
    as (_ & _ & Hurl & Habs).
  destruct (Hurl r Hr). split_and!; try done. by apply Habs.
Qed.

(** X13: no run of events changes the cache: calls of [retrieveImage] and
    [prePopulate] only read it, the [onerror] handler does not use it, and
    the [onload] handler throws before it reaches [putResource]. So what is
    in memory stays in memory, and an image that is not in memory does not
    get there by the layer's own fetches: [isPrePopulated] keeps its
    answer. *)
Theorem retrieval_never_changes_cache es w w' path :
  run es w = Some w' →
  gpuResourceCache (layer w') = gpuResourceCache (layer w) ∧
  isImageLayerInMemory path (layer w')
  = isImageLayerInMemory path (layer w) ∧
  isPrePopulated (Some ()) (layer w') = isPrePopulated (Some ()) (layer w).
Proof.
  intros Hrun.
  destruct (run_cache resourceUrlForTile coolDown es w w' Hrun)
    as (Hc & _ & Hp).
  unfold isPrePopulated, isImageLayerInMemory. by rewrite Hc, Hp.
Qed.

(** X14: a run from a new layer in which every fetch is issued with the
    redraw suppressed (by [prePopulate], or by [retrieveImage] with
    [suppressRedraw] set) dispatches no redraw event, however the fetches
    end. *)
Theorem prefetch_never_redraws es w0 w :
  initial w0 → forallb prefetchOnly es = true → run es w0 = Some w →
  redraws (layer w) = redraws (layer w0).
Proof.
  intros _ _ Hrun.
  by destruct (run_cache resourceUrlForTile coolDown es w0 w Hrun)
    as (_ & -> & _).
Qed.

End RetrievalMore.

(** The sample layer with its image in the cache, asked at time 30. *)
Lemma retrieveImage_ignores_cache_witness :
  BMNGOneImageLayer.outstanding
    (BMNGOneImageLayer.retrieveImage sampleUrl 60000 samplePath false 30
       sampleCachedLayer)
  = [sampleRequest false] ∧
  BMNGOneImageLayer.prePopulate sampleUrl 60000 (Some ()) 30
    sampleCachedLayer = JS.Normal sampleCachedLayer.
Proof.
  destruct (retrieveImage_ignores_cache sampleUrl 60000 sampleCachedLayer
              false 30 ("http://localhost" +:+ samplePath)
              ltac:(vm_compute; reflexivity)
              ltac:(vm_compute; apply not_elem_of_nil)
              eq_refl eq_refl ltac:(done)) as (Hout & _ & Hpre).
  split; [|exact Hpre].
  change (BMNGOneImageLayer.imagePath sampleCachedLayer)
    with samplePath in Hout.
  rewrite Hout. reflexivity.
Defined.

(** The sample layer after its fetch was issued: the fetch is the sample
    request, to the URL of the sample path. *)
Lemma outstanding_fetches_are_legitimate_witness :
  sampleUrl samplePath = Some ("http://localhost" +:+ samplePath).
Proof.
  apply (outstanding_fetches_are_legitimate sampleUrl 60000
           [BMNGOneImageLayer.Retrieve samplePath true 10]
           sampleWorld sampleIssued (sampleRequest true)
           (conj eq_refl eq_refl) eq_refl).
  apply list_elem_of_here.
Defined.

(** The sample layer pre-populates and its fetch loads with a texture: the
    image is not in memory afterwards. *)
Lemma retrieval_never_changes_cache_witness :
  ∃ w, BMNGOneImageLayer.run sampleUrl 60000
         [BMNGOneImageLayer.PrePopulate 10;
          BMNGOneImageLayer.Loaded 0 (Some sampleTexture) 20] sampleWorld
       = Some w ∧
       BMNGOneImageLayer.isImageLayerInMemory samplePath
         (BMNGOneImageLayer.layer w) = false.
Proof.
  eexists. split; [vm_compute; reflexivity|].
  apply (retrieval_never_changes_cache sampleUrl 60000
           [BMNGOneImageLayer.PrePopulate 10;
            BMNGOneImageLayer.Loaded 0 (Some sampleTexture) 20]
           sampleWorld _ samplePath).
  vm_compute. reflexivity.
Defined.

(** The sample layer pre-populates and its fetch loads. *)
Lemma prefetch_never_redraws_witness :
  ∃ w, BMNGOneImageLayer.run sampleUrl 60000
         [BMNGOneImageLayer.PrePopulate 10;
          BMNGOneImageLayer.Loaded 0 (Some sampleTexture) 20] sampleWorld
       = Some w ∧
       BMNGOneImageLayer.redraws (BMNGOneImageLayer.layer w) = 0%nat.
Proof.
  eexists. split; [vm_compute; reflexivity|].
  apply (prefetch_never_redraws sampleUrl 60000
           [BMNGOneImageLayer.PrePopulate 10;
            BMNGOneImageLayer.Loaded 0 (Some sampleTexture) 20]
           sampleWorld _ (conj eq_refl eq_refl) eq_refl).
  vm_compute. reflexivity.
Defined.

(** ** TimeSeriesLayer: pre-population and drawing *)

Section TimeSeriesMore.
Import JS TimeSeriesLayer.

Variable dateKey : Z → string.



End TimeSeriesMore.



(** ** OneImageLayer: requests to the cache *)

(** X25: [OneImageLayer.prePopulate] never changes the cache and keeps no
    record of what it has asked for. Called twice on the same window with
    nothing arriving in between, it asks the cache to retrieve the image
    twice when the cache does not hold it, and not at all when it does;
    [isPrePopulated] answers the same before and after. *)
Theorem oneImage_prePopulate_twice (dc : OneImageLayer.WorldWindow)
    (l : SubLayer.t) :
  ∃ dc1 dc2,
    OneImageLayer.prePopulate (Some dc) l = JS.Normal dc1 ∧
    OneImageLayer.prePopulate (Some dc1) l = JS.Normal dc2 ∧
    OneImageLayer.gpuResourceCache dc2 = OneImageLayer.gpuResourceCache dc ∧
    OneImageLayer.retrieved dc2
    = OneImageLayer.retrieved dc
        ++ (if OneImageLayer.isImageLayerInMemory dc l then []
            else [SubLayer.imagePath l; SubLayer.imagePath l]) ∧
    OneImageLayer.isPrePopulated (Some dc2) l
    = OneImageLayer.isPrePopulated (Some dc) l.
Proof.
  unfold OneImageLayer.prePopulate, OneImageLayer.isPrePopulated.
  destruct (OneImageLayer.isImageLayerInMemory dc l) eqn:Hmem.
  - exists dc, dc. rewrite Hmem, app_nil_r. by split_and!.
  - eexists _, _. split; [reflexivity|].
    unfold OneImageLayer.isImageLayerInMemory in *.
    cbn [OneImageLayer.gpuResourceCache OneImageLayer.retrieved].
    rewrite Hmem. split; [reflexivity|].
    cbn [OneImageLayer.gpuResourceCache OneImageLayer.retrieved].
    rewrite Hmem, <- app_assoc. by split_and!.
Qed.

(** ** The application: polling and the animation *)

Section AppProperties.
Import JS.

Variable dateKey : Z → string.
Variable baseUrl : string.

Local Abbreviation pollTick := (TimeSeriesApp.pollTick dateKey baseUrl).
Local Abbreviation step := (TimeSeriesApp.step dateKey baseUrl).
Local Abbreviation run := (TimeSeriesApp.run dateKey baseUrl).






End AppProperties.


